(** * LoadBalancer: the backend pool and the retry dispatcher

    A shallow embedding of [main.go] (package [main]) and of the server
    pool of package [backend], followed by the properties of the pool
    operations and of the dispatch state machine.

    The embedding is sequential: one call runs at a time on the pool, so
    [atomic.AddUint64] and [atomic.StoreUint64] are plain reads and writes
    of the cursor. *)

From Stdlib Require Import ZArith List String Ascii Bool Arith Lia Permutation.
Import ListNotations.
Open Scope Z_scope.

(** ** Machine integers

    [uint64] and [int] values are carried as [Z]; every arithmetic
    operation of the source that can leave the range is followed by the
    wrap-around of its type.  [int] is taken at 64 bits. *)

Definition to_uint64 (z : Z) : Z := z mod 2 ^ 64.

Definition to_int (z : Z) : Z := (z + 2 ^ 63) mod 2 ^ 64 - 2 ^ 63.

(** Run-time panics of the Go runtime that the pool can raise. *)
Inductive panic : Type :=
| DivideByZero
| IndexOutOfRange (idx : Z) (len : Z).

(** ** net/url, as the program observes it

    The program looks at a parsed URL through its [Host] field and its
    [String] method only. *)
Module url.

Record URL : Type := mkURL { Host : string; String : string }.

End url.

(** ** Observability records written with [log.Printf] / [log.Println] *)
Inductive log_record : Type :=
| LogMaxAttempts                     (* "%s(%s) Max attempts reached, terminating" *)
| LogTransportError (host : string)  (* "[%s] %s" *)
| LogAttempt (attempts : Z)          (* "%s(%s) Attempting retry %d" *)
| LogUnreachable                     (* "Site unreachable, err: " *)
| LogStatus (u : url.URL) (status : string). (* "%s []%s" *)

(** ** Package backend *)
Module backend.

(** Modelled from the spec: the struct [Backend] of package [backend],
    whose declaration is missing from the sources; [main] fills its
    fields [URL], [Alive] and [ReverseProxy].  A backend is its address and its liveness flag; the
    [ReverseProxy] field is the proxy that [main] builds for the same
    address, and it is modelled by [ServeHTTP] below. *)
Record Backend : Type := mkBackend { URL : url.URL; Alive : bool }.

(** Modelled from the spec: the method [Backend.IsAlive], whose source is
    missing; it reads the liveness flag. *)
Definition IsAlive (b : Backend) : bool := Alive b.

(** Modelled from the spec: the method [Backend.SetAlive], whose source is
    missing; it writes the liveness flag and nothing else. *)
Definition SetAlive (b : Backend) (alive : bool) : Backend :=
  {| URL := URL b; Alive := alive |}.

(** The pool: the backends in configuration order and the [uint64]
    cursor.  The slice holds pointers; a backend is identified by its
    position in the slice. *)
Record ServerPool : Type :=
  mkPool { backends : list Backend; current : Z }.

(** The zero value of [ServerPool]. *)
Definition empty_pool : ServerPool := {| backends := []; current := 0 |}.

(** [len(s.backends)] *)
Definition len (s : ServerPool) : Z := Z.of_nat (List.length (backends s)).

(** Outcome of a pool operation: a value and the pool after it, or a
    panic and the pool as the panic left it. *)
Inductive result (A : Type) : Type :=
| Ok (a : A) (s : ServerPool)
| Panic (p : panic) (s : ServerPool).
Arguments Ok {A} a s.
Arguments Panic {A} p s.

Definition AddBackend (s : ServerPool) (b : Backend) : ServerPool :=
  {| backends := backends s ++ [b]; current := current s |}.

(** [int(atomic.AddUint64(&s.current, uint64(1)%uint64(len(s.backends))))]:
    the remainder is taken of the constant 1, the sum is stored in the
    cursor and returned. *)
Definition NextIndex (s : ServerPool) : result Z :=
  if len s =? 0 then Panic DivideByZero s
  else
    let cur := to_uint64 (current s + 1 mod len s) in
    Ok (to_int cur) {| backends := backends s; current := cur |}.

(** [s.backends[idx]] *)
Definition index (s : ServerPool) (idx : Z) : option Backend :=
  if (0 <=? idx) && (idx <? len s) then nth_error (backends s) (Z.to_nat idx)
  else None.

(** The [for i := ...; i < l; i++] loop of [GetNextPeer], entered at [i]
    with [steps = l - i] iterations left ([steps = 0] when [i >= l]). *)
Fixpoint GetNextPeer_loop (s : ServerPool) (next i : Z) (steps : nat)
  : result (option (nat * Backend)) :=
  match steps with
  | O => Ok None s
  | S steps' =>
      if len s =? 0 then Panic DivideByZero s
      else
        let idx := Z.rem i (len s) in
        match index s idx with
        | None => Panic (IndexOutOfRange idx (len s)) s
        | Some b =>
            if IsAlive b then
              let s' := if negb (i =? next)
                        then {| backends := backends s;
                                current := to_uint64 idx |}
                        else s in
              Ok (Some (Z.to_nat idx, b)) s'
            else GetNextPeer_loop s next (to_int (i + 1)) steps'
        end
  end.

Definition GetNextPeer (s : ServerPool) : result (option (nat * Backend)) :=
  match NextIndex s with
  | Panic p s' => Panic p s'
  | Ok next s' =>
      let l := to_int (len s' + next) in
      GetNextPeer_loop s' next next (Z.to_nat (l - next))
  end.

(** The [range] loop of [MarkBackendStatus]: the first backend whose URL
    string equals the wanted one is updated and the loop is left. *)
Fixpoint MarkBackendStatus_range (bs : list Backend) (wanted : string) (alive : bool)
  : list Backend :=
  match bs with
  | [] => []
  | b :: rest =>
      if String.eqb (url.String (URL b)) wanted
      then SetAlive b alive :: rest
      else b :: MarkBackendStatus_range rest wanted alive
  end.

Definition MarkBackendStatus (s : ServerPool) (backendUrl : url.URL)
  (alive : bool) : ServerPool :=
  {| backends := MarkBackendStatus_range (backends s) (url.String backendUrl) alive;
     current := current s |}.

(** [net.DialTimeout("tcp", url.Host, 2s)] is the parameter [dial]: it
    tells whether the connection was established. *)
Definition isBackendAlive (dial : string -> bool) (u : url.URL)
  : list log_record * bool :=
  if dial (url.Host u) then ([], true) else ([LogUnreachable], false).

(** The [range] loop of [HealthCheck]: the records written and the
    backends after the pass. *)
Fixpoint HealthCheck_range (dial : string -> bool) (bs : list Backend)
  : list log_record * list Backend :=
  match bs with
  | [] => ([], [])
  | b :: rest =>
      let '(probe_log, alive) := isBackendAlive dial (URL b) in
      let b' := SetAlive b alive in
      let status := if negb alive then "down"%string else "up"%string in
      let '(rest_log, rest') := HealthCheck_range dial rest in
      (probe_log ++ LogStatus (URL b) status :: rest_log, b' :: rest')
  end.

Definition HealthCheck (dial : string -> bool) (s : ServerPool)
  : list log_record * ServerPool :=
  let '(records, bs) := HealthCheck_range dial (backends s) in
  (records, {| backends := bs; current := current s |}).

End backend.

(** ** Package main *)
Import backend.

(** *** Request contexts

    A context is the chain of [context.WithValue] nodes, newest first.
    The keys of this program are the [int] constants [Attempts] and
    [Retry]; the values stored under them are [int]s. *)
Definition Attempts : Z := 0.
Definition Retry : Z := 1.

Definition Ctx : Type := list (Z * Z).

Definition WithValue (parent : Ctx) (key val : Z) : Ctx := (key, val) :: parent.

Fixpoint Value (c : Ctx) (key : Z) : option Z :=
  match c with
  | [] => None
  | (k, v) :: parent => if k =? key then Some v else Value parent key
  end.

(** A request, reduced to what the dispatcher reads of it. *)
Record Request : Type := mkRequest { Context : Ctx }.

Definition WithContext (r : Request) (c : Ctx) : Request :=
  {| Context := c |}.

(** A request as the HTTP server hands it to [lb]: no key of this
    program is set. *)
Definition fresh_request : Request := {| Context := [] |}.

Definition GetAttemptsFromContext (r : Request) : Z :=
  match Value (Context r) Attempts with
  | Some attempts => attempts
  | None => 1
  end.

Definition GetRetryFromContext (r : Request) : Z :=
  match Value (Context r) Retry with
  | Some retry => retry
  | None => 0
  end.

(** *** Responses *)
Record Response : Type :=
  mkResponse { StatusCode : Z; ContentType : string; Body : string }.

Definition StatusServiceUnavailable : Z := 503.

Definition newline : string := String (ascii_of_nat 10) EmptyString.

(** [http.Error] of net/http: the message as a plain-text body, with the
    given status code. *)
Definition http_Error (error : string) (code : Z) : Response :=
  {| StatusCode := code;
     ContentType := "text/plain; charset=utf-8";
     Body := error ++ newline |}.

(** *** Dispatch

    What a request's handling does, in order. *)
Inductive event : Type :=
| EvLog (l : log_record)
| EvPeer (p : option nat)               (* what [serverPool.GetNextPeer()] returned *)
| EvRoundTrip (u : url.URL) (ok : bool) (* one forwarding attempt of a proxy *)
| EvSleep (ms : Z)                      (* [<-time.After(ms * time.Millisecond)] *)
| EvMark (u : url.URL) (alive : bool)   (* [serverPool.MarkBackendStatus(u, alive)] *)
| EvWrite (resp : Response).            (* [http.Error] on the response writer *)

(** How the handling of a request ends: the backend's response was
    relayed, an error response was written, or the handler panicked. *)
Inductive ending : Type :=
| Served (u : url.URL)
| Replied (resp : Response)
| Crashed (p : panic).

Record run : Type :=
  mkRun { trace : list event; pool : ServerPool; ended : ending }.

Definition after (evs : list event) (r : option run) : option run :=
  match r with
  | Some r' => Some {| trace := evs ++ trace r'; pool := pool r';
                       ended := ended r' |}
  | None => None
  end.

Section Dispatch.

(** The transport of the reverse proxies: [transport u t] tells whether
    the forwarding attempt number [t] of the request, made to [u],
    succeeds. *)
Variable transport : url.URL -> nat -> bool.

(** [lb], [proxy.ServeHTTP] for the proxy of [serverUrl], and the
    [proxy.ErrorHandler] closure of [serverUrl].  [s] is the global
    [serverPool]; [None] is returned when [fuel] runs out. *)
Fixpoint lb (fuel : nat) (s : ServerPool) (t : nat) (r : Request)
  {struct fuel} : option run :=
  match fuel with
  | O => None
  | S fuel' =>
      let attempts := GetAttemptsFromContext r in
      if attempts >? 3 then
        let resp := http_Error "service not available" StatusServiceUnavailable in
        Some {| trace := [EvLog LogMaxAttempts; EvWrite resp]; pool := s;
                ended := Replied resp |}
      else
        match GetNextPeer s with
        | Panic p s' => Some {| trace := []; pool := s'; ended := Crashed p |}
        | Ok (Some (i, peer)) s' =>
            after [EvPeer (Some i)] (ServeHTTP fuel' (URL peer) s' t r)
        | Ok None s' =>
            let resp := http_Error "Service not available" StatusServiceUnavailable in
            Some {| trace := [EvPeer None; EvWrite resp]; pool := s';
                    ended := Replied resp |}
        end
  end

with ServeHTTP (fuel : nat) (serverUrl : url.URL) (s : ServerPool) (t : nat)
  (r : Request) {struct fuel} : option run :=
  match fuel with
  | O => None
  | S fuel' =>
      if transport serverUrl t then
        Some {| trace := [EvRoundTrip serverUrl true]; pool := s;
                ended := Served serverUrl |}
      else
        after [EvRoundTrip serverUrl false]
              (ErrorHandler fuel' serverUrl s (S t) r)
  end

with ErrorHandler (fuel : nat) (serverUrl : url.URL) (s : ServerPool)
  (t : nat) (request : Request) {struct fuel} : option run :=
  match fuel with
  | O => None
  | S fuel' =>
      let retires := GetRetryFromContext request in
      if retires <? 3 then
        let ctx := WithValue (Context request) Retry (to_int (retires + 1)) in
        after [EvLog (LogTransportError (url.Host serverUrl)); EvSleep 10]
              (ServeHTTP fuel' serverUrl s t (WithContext request ctx))
      else
        let s' := MarkBackendStatus s serverUrl false in
        let attempts := GetAttemptsFromContext request in
        let ctx := WithValue (Context request) Attempts (to_int (attempts + 1)) in
        after [EvLog (LogTransportError (url.Host serverUrl));
               EvMark serverUrl false; EvLog (LogAttempt attempts)]
              (lb fuel' s' t (WithContext request ctx))
  end.

End Dispatch.

(** Fuel that the handling of [r] never exhausts: three calls for each
    attempt and retry the counters still allow. *)
Definition fuel_for (r : Request) : nat :=
  3 * (Z.to_nat (4 - GetAttemptsFromContext r)
       + Z.to_nat (3 - GetRetryFromContext r)) + 1.

(** *** Start-up *)

(** [strings.Split(s, ",")]: the pieces of [s] between commas. *)
Fixpoint Split_comma (s : string) : list string :=
  match s with
  | EmptyString => [EmptyString]
  | String c s' =>
      if Ascii.eqb c ","%char then EmptyString :: Split_comma s'
      else match Split_comma s' with
           | piece :: pieces => String c piece :: pieces
           | [] => [String c EmptyString]
           end
  end.

(** The part of [main] that fills [serverPool]; [Parse] is [url.Parse]
    ([None] when it returns an error) and [None] is [log.Fatal]. *)
Definition configure (Parse : string -> option url.URL)
  (acc : option ServerPool) (tok : string) : option ServerPool :=
  match acc with
  | None => None
  | Some s =>
      match Parse tok with
      | None => None
      | Some serverUrl =>
          Some (AddBackend s {| URL := serverUrl; Alive := true |})
      end
  end.

Definition main (Parse : string -> option url.URL) (serverList : string)
  : option ServerPool :=
  if (String.length serverList =? 0)%nat then None
  else fold_left (configure Parse) (Split_comma serverList) (Some empty_pool).

(** ** Consecutive calls on the pool *)

Definition pool_of {A : Type} (r : result A) : ServerPool :=
  match r with
  | Ok _ s => s
  | Panic _ s => s
  end.

(** The peer (position in the pool) that a [GetNextPeer] call handed out,
    if it handed out one. *)
Definition returned (r : result (option (nat * Backend))) : option nat :=
  match r with
  | Ok (Some (i, _)) _ => Some i
  | _ => None
  end.

(** [k] consecutive [GetNextPeer] calls, each on the pool the previous
    one left. *)
Fixpoint GetNextPeer_calls (k : nat) (s : ServerPool)
  : list (result (option (nat * Backend))) :=
  match k with
  | O => []
  | S k' =>
      let r := GetNextPeer s in
      r :: GetNextPeer_calls k' (pool_of r)
  end.

(** The cursor is far enough from the top of [int] for one more scan. *)
Definition in_range (s : ServerPool) : Prop :=
  0 < len s /\ 0 <= current s /\ current s + len s + 1 < 2 ^ 63.

(** Every backend of the pool is read alive, or dead. *)
Definition all_alive (s : ServerPool) : Prop :=
  forall b, In b (backends s) -> Alive b = true.

Definition all_dead (s : ServerPool) : Prop :=
  forall b, In b (backends s) -> Alive b = false.

(** Readings of a trace. *)
Fixpoint writes (tr : list event) : list Response :=
  match tr with
  | [] => []
  | EvWrite resp :: tr' => resp :: writes tr'
  | _ :: tr' => writes tr'
  end.

Fixpoint peers (tr : list event) : list nat :=
  match tr with
  | [] => []
  | EvPeer (Some i) :: tr' => i :: peers tr'
  | _ :: tr' => peers tr'
  end.

Fixpoint attempt_logs (tr : list event) : list Z :=
  match tr with
  | [] => []
  | EvLog (LogAttempt a) :: tr' => a :: attempt_logs tr'
  | _ :: tr' => attempt_logs tr'
  end.

(** Equality of URLs as observed. *)
Definition URL_eqb (u v : url.URL) : bool :=
  String.eqb (url.Host u) (url.Host v)
  && String.eqb (url.String u) (url.String v).

(** Forwarding attempts made to [u]. *)
Fixpoint round_trips (u : url.URL) (tr : list event) : nat :=
  match tr with
  | [] => O
  | EvRoundTrip v _ :: tr' =>
      if URL_eqb u v then S (round_trips u tr') else round_trips u tr'
  | _ :: tr' => round_trips u tr'
  end.

(** The status records among those of a health check. *)
Definition is_status (l : log_record) : bool :=
  match l with
  | LogStatus _ _ => true
  | _ => false
  end.

(** [a; a+1; ...], [k] values. *)
Fixpoint count_from (a : Z) (k : nat) : list Z :=
  match k with
  | O => []
  | S k' => a :: count_from (a + 1) k'
  end.

(** The values of [int]. *)
Definition int_value (z : Z) : Prop := - 2 ^ 63 <= z < 2 ^ 63.

(** Pools that a running balancer passes through from the pool [s0]
    that [main] configured, by the calls it makes on [serverPool]:
    [GetNextPeer] in [lb], [MarkBackendStatus(_, false)] in the error
    handlers, [HealthCheck] in the health-check loop. *)
Inductive serving (s0 : ServerPool) : ServerPool -> Prop :=
| serving_start : serving s0 s0
| serving_GetNextPeer s :
    serving s0 s -> serving s0 (pool_of (GetNextPeer s))
| serving_MarkBackendStatus s u :
    serving s0 s -> serving s0 (MarkBackendStatus s u false)
| serving_HealthCheck s dial :
    serving s0 s -> serving s0 (snd (HealthCheck dial s)).

(** ** Sample pools and environments *)

Definition addr (host : string) : url.URL :=
  {| url.Host := host; url.String := "http://" ++ host |}.

Definition up (host : string) : Backend := {| URL := addr host; Alive := true |}.

Definition down (host : string) : Backend :=
  {| URL := addr host; Alive := false |}.

(** Two backends, both alive. *)
Definition pool_ab (cursor : Z) : ServerPool :=
  {| backends := [up "a:80"; up "b:80"]; current := cursor |}.

(** Three backends, the middle one alive. *)
Definition pool_abc (cursor : Z) : ServerPool :=
  {| backends := [down "a:80"; up "b:80"; down "c:80"]; current := cursor |}.

(** The same three backends as [main] configures them, all alive. *)
Definition pool_abc_up (cursor : Z) : ServerPool :=
  {| backends := [up "a:80"; up "b:80"; up "c:80"]; current := cursor |}.

(** One backend, alive. *)
Definition pool_a (cursor : Z) : ServerPool :=
  {| backends := [up "a:80"]; current := cursor |}.

(** Two backends configured with the same address, both alive. *)
Definition pool_aa (cursor : Z) : ServerPool :=
  {| backends := [up "a:80"; up "a:80"]; current := cursor |}.

(** The largest [int]. *)
Definition max_int : Z := 2 ^ 63 - 1.

(** A transport on which every forwarding attempt fails, and a network
    on which no host answers. *)
Definition refused : url.URL -> nat -> bool := fun _ _ => false.
Definition unreachable : string -> bool := fun _ => false.

(** An address parser that accepts every token. *)
Definition parse_any (tok : string) : option url.URL := Some (addr tok).

(** ** Vocabulary of the statements *)

(** The backend at position [idx] is there and is read dead. *)
Definition dead_at (s : ServerPool) (idx : Z) : Prop :=
  exists b, index s idx = Some b /\ Alive b = false.

(** The pool [s] with [idx] written to the cursor. *)
Definition store (s : ServerPool) (idx : Z) : ServerPool :=
  {| backends := backends s; current := idx |}.

(** The test of [MarkBackendStatus]: the URL strings are equal. *)
Definition matches (u : url.URL) (b : Backend) : Prop :=
  url.String (URL b) = url.String u.

(** The backend at [j] is the first one of the pool with its address. *)
Definition first_with_its_address (s : ServerPool) (j : nat) (B : Backend) : Prop :=
  nth_error (backends s) j = Some B /\
  forall k b, (k < j)%nat -> nth_error (backends s) k = Some b ->
              ~ matches (URL B) b.

(** The pools reached from [s] by pool operations none of which restores
    the liveness of the backend at [j]: peer selections, marks with
    [alive = false], and health checks whose probe of that backend
    fails. *)
Inductive not_restored (j : nat) (s : ServerPool) : ServerPool -> Prop :=
| not_restored_start : not_restored j s s
| not_restored_GetNextPeer s' :
    not_restored j s s' -> not_restored j s (pool_of (GetNextPeer s'))
| not_restored_MarkBackendStatus s' u :
    not_restored j s s' -> not_restored j s (MarkBackendStatus s' u false)
| not_restored_HealthCheck s' dial :
    not_restored j s s' ->
    (forall b, nth_error (backends s') j = Some b ->
               dial (url.Host (URL b)) = false) ->
    not_restored j s (snd (HealthCheck dial s')).

(** The status record that [HealthCheck] writes for [b]. *)
Definition status_of (dial : string -> bool) (b : Backend) : log_record :=
  LogStatus (URL b) (if dial (url.Host (URL b)) then "up" else "down").

(** The backend [b] with its liveness set to the outcome of the probe. *)
Definition probed (dial : string -> bool) (b : Backend) : Backend :=
  {| URL := URL b; Alive := dial (url.Host (URL b)) |}.

(** The two error responses of [lb]. *)
Definition service_not_available : Response :=
  http_Error "service not available" StatusServiceUnavailable.

Definition Service_not_available : Response :=
  http_Error "Service not available" StatusServiceUnavailable.

(** The counters that [r] carries are [int]s. *)
Definition ints (r : Request) : Prop :=
  int_value (GetAttemptsFromContext r) /\ int_value (GetRetryFromContext r).

(** Attempts and retries that the counters of [r] still allow. *)
Definition budget (r : Request) : nat :=
  (Z.to_nat (4 - GetAttemptsFromContext r)
   + Z.to_nat (3 - GetRetryFromContext r))%nat.

(** How a trace ends, by the ending of the run: an error response is the
    last event and the only response written, and it comes right after
    the attempts ceiling was found exceeded or [GetNextPeer] returned
    none; a run that relays a backend's response or panics writes no
    error response. *)
Definition closes (tr : list event) (e : ending) : Prop :=
  match e with
  | Replied resp =>
      exists before,
        writes before = [] /\
        ((tr = before ++ [EvLog LogMaxAttempts; EvWrite resp] /\
          resp = service_not_available)
         \/ (tr = before ++ [EvPeer None; EvWrite resp] /\
             resp = Service_not_available))
  | Served u =>
      writes tr = [] /\ exists before, tr = before ++ [EvRoundTrip u true]
  | Crashed _ => writes tr = []
  end.

(** Room under the top of [int] for [k] more peer selections. *)
Definition room_for (k : nat) (s : ServerPool) : Prop :=
  0 < len s /\ 0 <= current s /\
  current s + len s + Z.of_nat k < 2 ^ 63 /\
  2 * len s + Z.of_nat k < 2 ^ 63.

(** One failed forwarding attempt that is followed by a retry. *)
Definition retry_round (u : url.URL) : list event :=
  [EvRoundTrip u false; EvLog (LogTransportError (url.Host u)); EvSleep 10].

(** The failed forwarding attempt that exhausts the backend. *)
Definition last_round (u : url.URL) (attempts : Z) : list event :=
  [EvRoundTrip u false; EvLog (LogTransportError (url.Host u));
   EvMark u false; EvLog (LogAttempt attempts)].

(** ** Further readings of traces and inputs *)

(** The values of [uint64]. *)
Definition uint64_value (z : Z) : Prop := 0 <= z < 2 ^ 64.

(** Forwarding attempts of a run, to whatever backend. *)
Fixpoint forwards (tr : list event) : nat :=
  match tr with
  | [] => O
  | EvRoundTrip _ _ :: tr' => S (forwards tr')
  | _ :: tr' => forwards tr'
  end.

(** Milliseconds that a run spends in its retry delays. *)
Fixpoint sleep_ms (tr : list event) : Z :=
  match tr with
  | [] => 0
  | EvSleep ms :: tr' => ms + sleep_ms tr'
  | _ :: tr' => sleep_ms tr'
  end.

(** The [MarkBackendStatus] calls of a run, in order. *)
Fixpoint marks (tr : list event) : list (url.URL * bool) :=
  match tr with
  | [] => []
  | EvMark u alive :: tr' => (u, alive) :: marks tr'
  | _ :: tr' => marks tr'
  end.

(** The backends after a sequence of [MarkBackendStatus] calls. *)
Definition replay (ms : list (url.URL * bool)) (bs : list Backend)
  : list Backend :=
  fold_left
    (fun bs' m => MarkBackendStatus_range bs' (url.String (fst m)) (snd m))
    ms bs.

(** Commas of a string. *)
Fixpoint commas (s : string) : nat :=
  match s with
  | EmptyString => O
  | String c s' => if Ascii.eqb c ","%char then S (commas s') else commas s'
  end.


(** A transport on which the first [k] forwarding attempts of a request
    fail and the later ones succeed. *)
Definition fails_first (k : nat) : url.URL -> nat -> bool :=
  fun _ t => (k <=? t)%nat.

(** ** Machine integers: values in range are left alone *)

Ltac pow2 :=
  change (2 ^ 64) with 18446744073709551616 in *;
  change (2 ^ 63) with 9223372036854775808 in *.

Lemma to_uint64_id (z : Z) : 0 <= z < 2 ^ 64 -> to_uint64 z = z.
Proof. intros H. unfold to_uint64. apply Z.mod_small. exact H. Qed.

Lemma to_int_id (z : Z) : int_value z -> to_int z = z.
Proof.
  unfold int_value, to_int. pow2. intros H.
  rewrite Z.mod_small by lia. lia.
Qed.

Lemma to_uint64_range (z : Z) : 0 <= to_uint64 z < 2 ^ 64.
Proof. unfold to_uint64. apply Z.mod_pos_bound. pow2. lia. Qed.

(** ** The pool operations leave the backend list in place *)

Lemma len_nonneg (s : ServerPool) : 0 <= len s.
Proof. unfold len. lia. Qed.

Lemma NextIndex_backends (s : ServerPool) :
  backends (pool_of (NextIndex s)) = backends s.
Proof. unfold NextIndex. destruct (len s =? 0); reflexivity. Qed.

Lemma GetNextPeer_loop_backends (s : ServerPool) (next : Z) (steps : nat) :
  forall i, backends (pool_of (GetNextPeer_loop s next i steps)) = backends s.
Proof.
  induction steps as [|steps IH]; intros i; simpl; [reflexivity|].
  destruct (len s =? 0); [reflexivity|].
  destruct (index s (Z.rem i (len s))) as [b|]; [|reflexivity].
  destruct (IsAlive b); [|apply IH].
  destruct (negb (i =? next)); reflexivity.
Qed.

Lemma len_same (s s' : ServerPool) : backends s' = backends s -> len s' = len s.
Proof. unfold len. intros ->. reflexivity. Qed.

Lemma GetNextPeer_backends (s : ServerPool) :
  backends (pool_of (GetNextPeer s)) = backends s.
Proof.
  unfold GetNextPeer. pose proof (NextIndex_backends s) as H.
  destruct (NextIndex s) as [next s'|p s']; simpl in *; [|exact H].
  rewrite GetNextPeer_loop_backends. exact H.
Qed.

(** A peer that the scan hands out sits in the pool and was read alive,
    whatever the cursor. *)
Lemma GetNextPeer_loop_sound (s : ServerPool) (next : Z) (steps : nat) :
  forall i k b s',
    GetNextPeer_loop s next i steps = Ok (Some (k, b)) s' ->
    nth_error (backends s) k = Some b /\ Alive b = true.
Proof.
  induction steps as [|steps IH]; intros i k b s'; simpl; [discriminate|].
  destruct (len s =? 0); [discriminate|].
  unfold index.
  destruct ((0 <=? Z.rem i (len s)) && (Z.rem i (len s) <? len s)) eqn:Hin;
    [|discriminate].
  destruct (nth_error (backends s) (Z.to_nat (Z.rem i (len s)))) as [b0|] eqn:Hnth;
    [|discriminate].
  unfold IsAlive. destruct (Alive b0) eqn:Hb0; [|apply IH].
  intros H. inversion H; subst. split; assumption.
Qed.

Lemma GetNextPeer_sound (s : ServerPool) (k : nat) (b : Backend) (s' : ServerPool) :
  GetNextPeer s = Ok (Some (k, b)) s' ->
  nth_error (backends s) k = Some b /\ Alive b = true.
Proof.
  unfold GetNextPeer. pose proof (NextIndex_backends s) as H.
  destruct (NextIndex s) as [next s1|p s1]; simpl in *; [|discriminate].
  intros Hloop. apply GetNextPeer_loop_sound in Hloop. rewrite H in Hloop.
  exact Hloop.
Qed.

(** ** The scan, while the cursor is in range *)

Lemma index_Some (s : ServerPool) (idx : Z) :
  0 <= idx < len s -> exists b, index s idx = Some b.
Proof.
  intros H. unfold index.
  replace ((0 <=? idx) && (idx <? len s)) with true
    by (symmetry; apply andb_true_iff; split; [apply Z.leb_le|apply Z.ltb_lt]; lia).
  destruct (nth_error (backends s) (Z.to_nat idx)) as [b|] eqn:Hn; [eauto|].
  apply nth_error_None in Hn. unfold len in H. lia.
Qed.

Lemma index_nth (s : ServerPool) (idx : Z) (b : Backend) :
  index s idx = Some b ->
  0 <= idx < len s /\ nth_error (backends s) (Z.to_nat idx) = Some b.
Proof.
  unfold index.
  destruct ((0 <=? idx) && (idx <? len s)) eqn:H; [|discriminate].
  apply andb_true_iff in H. destruct H as [H1 H2].
  apply Z.leb_le in H1. apply Z.ltb_lt in H2. intros Hn. split; [lia|exact Hn].
Qed.

Lemma nth_index (s : ServerPool) (k : nat) (b : Backend) :
  nth_error (backends s) k = Some b -> index s (Z.of_nat k) = Some b.
Proof.
  intros H. unfold index.
  assert (Hk : (k < List.length (backends s))%nat)
    by (apply nth_error_Some; rewrite H; discriminate).
  replace ((0 <=? Z.of_nat k) && (Z.of_nat k <? len s)) with true
    by (symmetry; apply andb_true_iff; split;
        [apply Z.leb_le|apply Z.ltb_lt]; unfold len; lia).
  rewrite Nat2Z.id. exact H.
Qed.

(** The loop looks at the positions [(i + k) mod len], [k = 0, 1, ...],
    and stops at the first one read alive. *)
Lemma GetNextPeer_loop_scan (s : ServerPool) (next : Z) :
  0 < len s ->
  forall steps i,
    0 <= i -> i + Z.of_nat steps < 2 ^ 63 ->
    (GetNextPeer_loop s next i steps = Ok None s /\
     forall k, (k < steps)%nat -> dead_at s ((i + Z.of_nat k) mod len s))
    \/
    (exists k b,
        (k < steps)%nat /\
        index s ((i + Z.of_nat k) mod len s) = Some b /\ Alive b = true /\
        (forall k', (k' < k)%nat -> dead_at s ((i + Z.of_nat k') mod len s)) /\
        GetNextPeer_loop s next i steps =
          Ok (Some (Z.to_nat ((i + Z.of_nat k) mod len s), b))
             (if i + Z.of_nat k =? next then s
              else store s ((i + Z.of_nat k) mod len s))).
Proof.
  intros Hlen. induction steps as [|steps IH]; intros i Hi Hmax.
  - left. split; [reflexivity|]. intros k Hk. lia.
  - simpl GetNextPeer_loop.
    replace (len s =? 0) with false by (symmetry; apply Z.eqb_neq; lia).
    rewrite Z.rem_mod_nonneg by lia.
    assert (Hidx : 0 <= i mod len s < len s) by (apply Z.mod_pos_bound; lia).
    destruct (index_Some s _ Hidx) as [b Hb]. rewrite Hb.
    unfold IsAlive. destruct (Alive b) eqn:Halive.
    + right. exists O, b. rewrite Z.add_0_r.
      split; [lia|]. split; [exact Hb|]. split; [exact Halive|].
      split; [intros k' Hk'; lia|].
      destruct (i =? next); simpl; [reflexivity|].
      unfold store. rewrite to_uint64_id; [reflexivity|].
      pose proof (Z.mod_le i (len s) Hi Hlen). pow2. lia.
    + assert (Hnext : to_int (i + 1) = i + 1)
        by (apply to_int_id; unfold int_value; pow2; lia).
      rewrite Hnext.
      destruct (IH (i + 1)) as [[Hnone Hdead]|(k & b' & Hk & Hb' & Ha' & Hdead & Hsome)];
        [lia|lia| |].
      * left. split; [exact Hnone|]. intros k Hk.
        destruct k as [|k].
        -- rewrite Z.add_0_r. exists b. split; assumption.
        -- replace (i + Z.of_nat (S k)) with (i + 1 + Z.of_nat k) by lia.
           apply Hdead. lia.
      * right. exists (S k), b'.
        replace (i + Z.of_nat (S k)) with (i + 1 + Z.of_nat k) by lia.
        split; [lia|]. split; [exact Hb'|]. split; [exact Ha'|].
        split; [|exact Hsome].
        intros k' Hk'. destruct k' as [|k'].
        -- rewrite Z.add_0_r. exists b. split; assumption.
        -- replace (i + Z.of_nat (S k')) with (i + 1 + Z.of_nat k') by lia.
           apply Hdead. lia.
Qed.

(** A window of [len] consecutive counters meets every position. *)
Lemma window_covers (n i j : Z) :
  0 < n -> 0 <= j < n ->
  exists k, (k < Z.to_nat n)%nat /\ (i + Z.of_nat k) mod n = j.
Proof.
  intros Hn Hj. exists (Z.to_nat ((j - i) mod n)).
  assert (H : 0 <= (j - i) mod n < n) by (apply Z.mod_pos_bound; lia).
  split; [lia|].
  rewrite Z2Nat.id by lia.
  rewrite Z.add_mod_idemp_r by lia.
  replace (i + (j - i)) with j by lia. apply Z.mod_small. exact Hj.
Qed.

Lemma NextIndex_in_range (s : ServerPool) :
  in_range s ->
  NextIndex s = Ok (current s + 1 mod len s) (store s (current s + 1 mod len s)).
Proof.
  intros (Hlen & Hcur & Hmax). unfold NextIndex.
  replace (len s =? 0) with false by (symmetry; apply Z.eqb_neq; lia).
  assert (H1 : 0 <= 1 mod len s < len s) by (apply Z.mod_pos_bound; lia).
  rewrite to_uint64_id by (pow2; lia).
  rewrite to_int_id by (unfold int_value; pow2; lia).
  reflexivity.
Qed.

(** [GetNextPeer] on a pool in range: the loop of [len] iterations from
    the counter that [NextIndex] returned. *)
Lemma GetNextPeer_in_range (s : ServerPool) :
  in_range s ->
  GetNextPeer s =
    GetNextPeer_loop (store s (current s + 1 mod len s))
      (current s + 1 mod len s) (current s + 1 mod len s)
      (List.length (backends s)).
Proof.
  intros H. unfold GetNextPeer. rewrite (NextIndex_in_range s H).
  destruct H as (Hlen & Hcur & Hmax).
  assert (H1 : 0 <= 1 mod len s < len s) by (apply Z.mod_pos_bound; lia).
  assert (H2 : 1 mod len s <= 1) by (apply Z.mod_le; lia).
  cbv zeta. replace (len (store s (current s + 1 mod len s))) with (len s)
    by reflexivity.
  rewrite to_int_id by (unfold int_value; pow2; lia).
  replace (len s + (current s + 1 mod len s) - (current s + 1 mod len s))
    with (len s) by lia.
  unfold len. rewrite Nat2Z.id. reflexivity.
Qed.

Lemma in_range_store (s : ServerPool) :
  in_range s ->
  let next := current s + 1 mod len s in
  0 < len (store s next) /\ 0 <= next /\
  next + Z.of_nat (List.length (backends s)) < 2 ^ 63.
Proof.
  intros (Hlen & Hcur & Hmax). cbv zeta.
  assert (H1 : 0 <= 1 mod len s < len s) by (apply Z.mod_pos_bound; lia).
  assert (H2 : 1 mod len s <= 1) by (apply Z.mod_le; lia).
  split; [exact Hlen|]. split; [lia|]. unfold len in *. lia.
Qed.

(** In range, [GetNextPeer] hands out a backend read alive, or none when
    every backend is dead. *)
Lemma GetNextPeer_alive_or_none (s : ServerPool) :
  in_range s ->
  (exists i b s', GetNextPeer s = Ok (Some (i, b)) s' /\
                  nth_error (backends s) i = Some b /\ Alive b = true)
  \/ (exists s', GetNextPeer s = Ok None s' /\ all_dead s).
Proof.
  intros H. rewrite (GetNextPeer_in_range s H).
  destruct (in_range_store s H) as (Hlen & Hnext & Hmax).
  set (next := current s + 1 mod len s) in *.
  destruct (GetNextPeer_loop_scan (store s next) next Hlen
              (List.length (backends s)) next Hnext Hmax)
    as [[Hnone Hdead]|(k & b & Hk & Hb & Ha & _ & Hsome)].
  - right. eexists. split; [exact Hnone|].
    intros b Hin. apply In_nth_error in Hin. destruct Hin as [j Hj].
    assert (Hjlt : (j < List.length (backends s))%nat)
      by (apply nth_error_Some; rewrite Hj; discriminate).
    destruct (window_covers (len (store s next)) next (Z.of_nat j) Hlen)
      as (k & Hk & Hkj); [unfold len; simpl; lia|].
    destruct (Hdead k) as (b' & Hb' & Ha').
    { unfold len in Hk. simpl in Hk. lia. }
    rewrite Hkj in Hb'. apply index_nth in Hb'. destruct Hb' as [_ Hb'].
    rewrite Nat2Z.id in Hb'. simpl in Hb'. congruence.
  - left. do 3 eexists. split; [exact Hsome|].
    apply index_nth in Hb. destruct Hb as [_ Hb]. split; assumption.
Qed.

Lemma GetNextPeer_none_iff_all_dead (s : ServerPool) :
  in_range s ->
  ((exists s', GetNextPeer s = Ok None s') <-> all_dead s).
Proof.
  intros H. destruct (GetNextPeer_alive_or_none s H)
    as [(i & b & s' & Hget & Hnth & Ha)|(s' & Hget & Hdead)].
  - split.
    + intros [s'' Hnone]. congruence.
    + intros Hdead. apply nth_error_In in Hnth. apply Hdead in Hnth. congruence.
  - split; [intros _; exact Hdead|intros _; eauto].
Qed.

(** In range, with exactly one backend alive, that backend is handed
    out. *)
Lemma GetNextPeer_only_alive (s : ServerPool) (a : nat) (b : Backend) :
  in_range s ->
  nth_error (backends s) a = Some b -> Alive b = true ->
  (forall j b', j <> a -> nth_error (backends s) j = Some b' -> Alive b' = false) ->
  exists s', GetNextPeer s = Ok (Some (a, b)) s'.
Proof.
  intros H Hnth Ha Hothers.
  destruct (GetNextPeer_alive_or_none s H)
    as [(i & b' & s' & Hget & Hnth' & Ha')|(s' & Hget & Hdead)].
  - destruct (Nat.eq_dec i a) as [->|Hne].
    + exists s'. congruence.
    + specialize (Hothers i b' Hne Hnth'). congruence.
  - apply nth_error_In in Hnth. apply Hdead in Hnth. congruence.
Qed.

(** In range, with every backend alive, the backend at the counter that
    [NextIndex] returned is handed out and the cursor stays there. *)
Lemma GetNextPeer_all_alive (s : ServerPool) :
  in_range s -> all_alive s ->
  let next := current s + 1 mod len s in
  exists b, GetNextPeer s = Ok (Some (Z.to_nat (next mod len s), b)) (store s next).
Proof.
  intros H Halive next. rewrite (GetNextPeer_in_range s H).
  destruct (in_range_store s H) as (Hlen & Hnext & Hmax).
  fold next in Hlen, Hnext, Hmax |- *.
  destruct (GetNextPeer_loop_scan (store s next) next Hlen
              (List.length (backends s)) next Hnext Hmax)
    as [[Hnone Hdead]|(k & b & Hk & Hb & Ha & Hdead & Hsome)].
  - destruct (Hdead O) as (b & Hb & Ha).
    { destruct H as (H & _). unfold len in H. lia. }
    apply index_nth in Hb. destruct Hb as [_ Hb]. apply nth_error_In in Hb.
    apply Halive in Hb. congruence.
  - destruct k as [|k].
    + rewrite Z.add_0_r in Hsome. rewrite Z.eqb_refl in Hsome.
      exists b. exact Hsome.
    + destruct (Hdead O) as (b0 & Hb0 & Ha0); [lia|].
      apply index_nth in Hb0. destruct Hb0 as [_ Hb0]. apply nth_error_In in Hb0.
      apply Halive in Hb0. congruence.
Qed.

(** ** Round robin over an all-alive pool, while the cursor is in range *)

Lemma step_mod (c n j : Z) :
  0 < n -> (c + 1 mod n + j) mod n = (c + (1 + j)) mod n.
Proof.
  intros Hn. replace (c + 1 mod n + j) with (1 mod n + (c + j)) by lia.
  rewrite Z.add_mod_idemp_l by lia. f_equal. lia.
Qed.

Lemma GetNextPeer_calls_all_alive (k : nat) :
  forall s,
    0 < len s -> 0 <= current s ->
    current s + Z.of_nat k + len s < 2 ^ 63 ->
    all_alive s ->
    map returned (GetNextPeer_calls k s) =
    map (fun j => Some (Z.to_nat ((current s + Z.of_nat j) mod len s))) (seq 1 k).
Proof.
  induction k as [|k IH]; intros s Hlen Hcur Hmax Halive; [reflexivity|].
  assert (H1 : 0 <= 1 mod len s < len s) by (apply Z.mod_pos_bound; lia).
  assert (H2 : 1 mod len s <= 1) by (apply Z.mod_le; lia).
  assert (Hin : in_range s) by (unfold in_range; lia).
  destruct (GetNextPeer_all_alive s Hin Halive) as [b Hget].
  cbn [GetNextPeer_calls seq map]. rewrite Hget. cbn [returned pool_of].
  f_equal.
  - f_equal. f_equal. pose proof (step_mod (current s) (len s) 0 Hlen) as E.
    rewrite Z.add_0_r in E. exact E.
  - rewrite IH.
    + rewrite <- (seq_shift k 1), map_map. apply map_ext. intros j.
      cbn [store current]. replace (len (store s (current s + 1 mod len s)))
        with (len s) by reflexivity.
      f_equal. f_equal. rewrite step_mod by exact Hlen. f_equal. lia.
    + exact Hlen.
    + cbn [store current]. lia.
    + cbn [store current]. replace (len (store s (current s + 1 mod len s)))
        with (len s) by reflexivity. lia.
    + exact Halive.
Qed.

Lemma mod_window_inj (c n j1 j2 : Z) :
  0 < n -> 0 <= j1 < n -> 0 <= j2 < n ->
  (c + j1) mod n = (c + j2) mod n -> j1 = j2.
Proof.
  intros Hn H1 H2 E.
  pose proof (Z.div_mod (c + j1) n ltac:(lia)) as D1.
  pose proof (Z.div_mod (c + j2) n ltac:(lia)) as D2.
  rewrite E in D1.
  assert (D : j1 - j2 = n * ((c + j1) / n - (c + j2) / n)) by lia.
  assert (Z0 : (c + j1) / n - (c + j2) / n = 0) by nia.
  rewrite Z0 in D. lia.
Qed.

(** The positions of a full round are those of the pool, each once. *)
Lemma round_is_permutation (c : Z) (n : nat) :
  (0 < n)%nat ->
  Permutation
    (map (fun j => Z.to_nat ((c + Z.of_nat j) mod Z.of_nat n)) (seq 1 n))
    (seq 0 n).
Proof.
  intros Hn. apply NoDup_Permutation_bis.
  - apply NoDup_map_NoDup_ForallPairs; [|apply seq_NoDup].
    intros j1 j2 Hj1 Hj2 E. apply in_seq in Hj1. apply in_seq in Hj2.
    assert (B1 : 0 <= (c + Z.of_nat j1) mod Z.of_nat n < Z.of_nat n)
      by (apply Z.mod_pos_bound; lia).
    assert (B2 : 0 <= (c + Z.of_nat j2) mod Z.of_nat n < Z.of_nat n)
      by (apply Z.mod_pos_bound; lia).
    apply Z2Nat.inj in E; [|lia|lia].
    replace (c + Z.of_nat j1) with (c + 1 + (Z.of_nat j1 - 1)) in E by lia.
    replace (c + Z.of_nat j2) with (c + 1 + (Z.of_nat j2 - 1)) in E by lia.
    apply mod_window_inj in E; lia.
  - rewrite length_map, !length_seq. lia.
  - intros x Hx. apply in_map_iff in Hx. destruct Hx as (j & <- & Hj).
    apply in_seq.
    assert (B : 0 <= (c + Z.of_nat j) mod Z.of_nat n < Z.of_nat n)
      by (apply Z.mod_pos_bound; lia).
    lia.
Qed.

(** ** NextIndex *)

(** C1 (the code at the failing input): on the pool of two backends that
    [main] configures from ["a:80,b:80"], the first [NextIndex] call
    returns 1 and the second one returns 2, the cursor itself and not an
    index of the pool; on a pool of one backend the call adds
    [1 mod 1 = 0] and the cursor does not move. *)
Theorem C1_NextIndex_returns_the_unreduced_cursor :
  main parse_any "a:80,b:80" = Some (pool_ab 0) /\
  NextIndex (pool_ab 0) = Ok 1 (pool_ab 1) /\
  NextIndex (pool_ab 1) = Ok 2 (pool_ab 2) /\
  len (pool_ab 1) = 2 /\
  NextIndex (pool_a 0) = Ok 0 (pool_a 0).
Proof. repeat split. Qed.

(** What [NextIndex] does on every pool of two or more backends whose
    cursor is in range: it adds one and returns the sum as it is. *)
Lemma NextIndex_adds_one (s : ServerPool) :
  2 <= len s -> 0 <= current s -> current s + 1 < 2 ^ 63 ->
  NextIndex s = Ok (current s + 1) (store s (current s + 1)).
Proof.
  intros Hlen Hcur Hmax. unfold NextIndex.
  replace (len s =? 0) with false by (symmetry; apply Z.eqb_neq; lia).
  rewrite Z.mod_1_l by lia.
  rewrite to_uint64_id by (pow2; lia).
  rewrite to_int_id by (unfold int_value; pow2; lia).
  reflexivity.
Qed.

(** ** GetNextPeer *)

(** On a pool of two or more backends, all alive, [GetNextPeer] calls
    take the cursor from 0 to any value that leaves room for a scan. *)
Lemma every_cursor_is_reached (bs : list Backend) (c : Z) :
  (2 <= List.length bs)%nat -> (forall b, In b bs -> Alive b = true) ->
  0 <= c -> c + Z.of_nat (List.length bs) < 2 ^ 63 ->
  serving {| backends := bs; current := 0 |} {| backends := bs; current := c |}.
Proof.
  intros Hbs Halive Hc. revert c Hc.
  apply (natlike_ind
           (fun c => c + Z.of_nat (List.length bs) < 2 ^ 63 ->
                     serving {| backends := bs; current := 0 |}
                             {| backends := bs; current := c |})).
  - intros _. apply serving_start.
  - intros c Hc IH Hmax.
    set (s := {| backends := bs; current := c |}).
    assert (Hin : in_range s) by (unfold in_range, len; simpl; lia).
    destruct (GetNextPeer_all_alive s Hin Halive) as [b Hget].
    assert (Hstep : pool_of (GetNextPeer s)
                    = {| backends := bs; current := Z.succ c |}).
    { rewrite Hget. unfold store, len. simpl.
      rewrite Z.mod_1_l by lia. reflexivity. }
    rewrite <- Hstep. apply serving_GetNextPeer. apply IH. lia.
Qed.

Lemma pool_ab_reached (c : Z) :
  0 <= c <= max_int -> serving (pool_ab 0) (pool_ab c).
Proof.
  intros Hc.
  assert (Hbelow : forall c', 0 <= c' <= max_int - 2 ->
                              serving (pool_ab 0) (pool_ab c')).
  { intros c' Hc'. apply every_cursor_is_reached.
    - simpl; lia.
    - intros b [<-|[<-|[]]]; reflexivity.
    - lia.
    - unfold max_int in Hc'. simpl. pow2. lia. }
  assert (H1 : serving (pool_ab 0) (pool_ab (max_int - 1))).
  { change (pool_ab (max_int - 1))
      with (pool_of (GetNextPeer (pool_ab (max_int - 2)))).
    apply serving_GetNextPeer, Hbelow. unfold max_int. pow2. lia. }
  assert (H0 : serving (pool_ab 0) (pool_ab max_int)).
  { change (pool_ab max_int)
      with (pool_of (GetNextPeer (pool_ab (max_int - 1)))).
    apply serving_GetNextPeer, H1. }
  destruct (Z.eq_dec c max_int) as [->|Hne]; [exact H0|].
  destruct (Z.eq_dec c (max_int - 1)) as [->|Hne']; [exact H1|].
  apply Hbelow. lia.
Qed.

Lemma pool_abc_reached : serving (pool_abc_up 0) (pool_abc max_int).
Proof.
  change (pool_abc max_int)
    with (MarkBackendStatus
            (MarkBackendStatus
               (pool_of (GetNextPeer (pool_of (GetNextPeer (pool_of (GetNextPeer
                  (pool_abc_up (max_int - 3))))))))
               (addr "a:80") false)
            (addr "c:80") false).
  do 2 apply serving_MarkBackendStatus. do 3 apply serving_GetNextPeer.
  apply every_cursor_is_reached.
  - simpl; lia.
  - intros b [<-|[<-|[<-|[]]]]; reflexivity.
  - unfold max_int. pow2. lia.
  - unfold max_int. simpl. pow2. lia.
Qed.

(** C3 (the code at the failing input): the two backends that [main]
    configures from ["a:80,b:80"] stay alive and the cursor has reached
    the largest [int].  Two consecutive [GetNextPeer] calls then hand out
    the first backend and panic on the position -1; the second backend is
    not handed out. *)
Theorem C3_round_robin_breaks_at_the_top_of_int :
  main parse_any "a:80,b:80" = Some (pool_ab 0) /\
  serving (pool_ab 0) (pool_ab max_int) /\
  all_alive (pool_ab max_int) /\
  GetNextPeer_calls 2 (pool_ab max_int) =
    [Ok (Some (0%nat, up "a:80")) (pool_ab (max_int + 1));
     Panic (IndexOutOfRange (-1) 2) (pool_ab (max_int + 2))].
Proof.
  split; [reflexivity|]. split; [|split].
  - apply pool_ab_reached. unfold max_int. pow2. lia.
  - intros b [<-|[<-|[]]]; reflexivity.
  - vm_compute. reflexivity.
Qed.

(** Round robin below that: [n] consecutive calls on [n] alive backends
    hand out the positions after the cursor, in cyclic order, each once. *)
Lemma GetNextPeer_round_robin (s : ServerPool) :
  let n := List.length (backends s) in
  (0 < n)%nat -> 0 <= current s -> current s + 2 * len s < 2 ^ 63 ->
  all_alive s ->
  map returned (GetNextPeer_calls n s) =
    map (fun j => Some (Z.to_nat ((current s + Z.of_nat j) mod len s))) (seq 1 n)
  /\ Permutation
       (map (fun j => Z.to_nat ((current s + Z.of_nat j) mod len s)) (seq 1 n))
       (seq 0 n).
Proof.
  intros n Hn Hcur Hmax Halive.
  assert (Hlen : len s = Z.of_nat n) by reflexivity.
  split.
  - apply GetNextPeer_calls_all_alive; try assumption; lia.
  - rewrite Hlen. apply round_is_permutation. exact Hn.
Qed.

(** C4 (the code at the failing input): pools that the balancer reaches
    from what [main] configures.  Two counters below the largest [int],
    [GetNextPeer] returns none although both backends are alive, because
    the loop bound [l] wraps around; at the largest [int], with only the
    middle backend of three alive, it panics on the position -2 instead
    of handing that backend out. *)
Theorem C4_selection_fails_at_the_top_of_int :
  serving (pool_ab 0) (pool_ab (max_int - 2)) /\
  all_alive (pool_ab (max_int - 2)) /\
  GetNextPeer (pool_ab (max_int - 2)) = Ok None (pool_ab (max_int - 1)) /\
  main parse_any "a:80,b:80,c:80" = Some (pool_abc_up 0) /\
  serving (pool_abc_up 0) (pool_abc max_int) /\
  nth_error (backends (pool_abc max_int)) 1 = Some (up "b:80") /\
  GetNextPeer (pool_abc max_int) =
    Panic (IndexOutOfRange (-2) 3) (pool_abc (max_int + 1)).
Proof.
  split; [apply pool_ab_reached; unfold max_int; pow2; lia|].
  split; [intros b [<-|[<-|[]]]; reflexivity|].
  split; [vm_compute; reflexivity|].
  split; [reflexivity|].
  split; [exact pool_abc_reached|].
  split; [reflexivity|vm_compute; reflexivity].
Qed.

(** Selection below that: an alive backend or none, none exactly when
    all are dead, and the only alive backend when there is one. *)
Lemma GetNextPeer_selects (s : ServerPool) :
  in_range s ->
  ((exists i b s', GetNextPeer s = Ok (Some (i, b)) s' /\
                   nth_error (backends s) i = Some b /\ Alive b = true)
   \/ (exists s', GetNextPeer s = Ok None s'))
  /\ ((exists s', GetNextPeer s = Ok None s') <-> all_dead s)
  /\ (forall a b,
         nth_error (backends s) a = Some b -> Alive b = true ->
         (forall j b', j <> a -> nth_error (backends s) j = Some b' ->
                       Alive b' = false) ->
         exists s', GetNextPeer s = Ok (Some (a, b)) s').
Proof.
  intros H. split; [|split].
  - destruct (GetNextPeer_alive_or_none s H) as [Hsome|(s' & Hnone & _)];
      [left; exact Hsome|right; eauto].
  - apply GetNextPeer_none_iff_all_dead. exact H.
  - intros a b. apply GetNextPeer_only_alive. exact H.
Qed.

(** ** HealthCheck *)

Lemma HealthCheck_range_backends (dial : string -> bool) (bs : list Backend) :
  snd (HealthCheck_range dial bs) = map (probed dial) bs.
Proof.
  induction bs as [|b rest IH]; simpl; [reflexivity|].
  unfold isBackendAlive.
  destruct (HealthCheck_range dial rest) as [rest_log rest'] eqn:E.
  simpl in IH. subst rest'. unfold probed, SetAlive.
  destruct (dial (url.Host (URL b))); reflexivity.
Qed.

Lemma HealthCheck_range_status (dial : string -> bool) (bs : list Backend) :
  filter is_status (fst (HealthCheck_range dial bs)) = map (status_of dial) bs.
Proof.
  induction bs as [|b rest IH]; simpl; [reflexivity|].
  unfold isBackendAlive, status_of.
  destruct (HealthCheck_range dial rest) as [rest_log rest'] eqn:E.
  simpl in IH. unfold status_of in IH.
  destruct (dial (url.Host (URL b))); simpl; f_equal; exact IH.
Qed.

Lemma HealthCheck_range_records (dial : string -> bool) (bs : list Backend) :
  List.length (fst (HealthCheck_range dial bs)) =
  (List.length bs
   + List.length (filter (fun b => negb (dial (url.Host (URL b)))) bs))%nat.
Proof.
  induction bs as [|b rest IH]; simpl; [reflexivity|].
  unfold isBackendAlive.
  destruct (HealthCheck_range dial rest) as [rest_log rest'] eqn:E.
  simpl in IH. destruct (dial (url.Host (URL b))); simpl; rewrite IH; lia.
Qed.

(** A second pass under a network that answers the same way writes the
    same records and leaves the backends as the first pass left them. *)
Lemma HealthCheck_range_again (dial dial' : string -> bool) (bs : list Backend) :
  (forall b, In b bs -> dial' (url.Host (URL b)) = dial (url.Host (URL b))) ->
  HealthCheck_range dial' (map (probed dial) bs) =
  (fst (HealthCheck_range dial bs), map (probed dial) bs).
Proof.
  induction bs as [|b rest IH]; intros Hsame; simpl; [reflexivity|].
  rewrite IH by (intros b' Hin; apply Hsame; right; exact Hin).
  unfold isBackendAlive. simpl.
  rewrite (Hsame b) by (left; reflexivity).
  destruct (HealthCheck_range dial rest) as [rest_log rest'] eqn:E.
  unfold probed, SetAlive.
  destruct (dial (url.Host (URL b))); reflexivity.
Qed.

(** C7 (amended): [HealthCheck] visits every backend in pool order, sets
    its liveness to the outcome of the probe of its host and leaves
    addresses and cursor alone; it writes one status record per backend,
    and the probe writes one more record for each backend it finds
    unreachable; a second pass under the same probe outcomes writes the
    same records and leaves the same liveness flags. *)
Theorem C7_HealthCheck_sets_liveness_to_the_probe (dial dial' : string -> bool)
  (s : ServerPool) :
  (forall b, In b (backends s) ->
             dial' (url.Host (URL b)) = dial (url.Host (URL b))) ->
  backends (snd (HealthCheck dial s)) = map (probed dial) (backends s)
  /\ current (snd (HealthCheck dial s)) = current s
  /\ filter is_status (fst (HealthCheck dial s)) =
       map (status_of dial) (backends s)
  /\ List.length (fst (HealthCheck dial s)) =
       (List.length (backends s)
        + List.length (filter (fun b => negb (dial (url.Host (URL b))))
                              (backends s)))%nat
  /\ HealthCheck dial' (snd (HealthCheck dial s)) = HealthCheck dial s.
Proof.
  intros Hsame. unfold HealthCheck.
  pose proof (HealthCheck_range_backends dial (backends s)) as Hb.
  pose proof (HealthCheck_range_status dial (backends s)) as Hs.
  pose proof (HealthCheck_range_records dial (backends s)) as Hr.
  pose proof (HealthCheck_range_again dial dial' (backends s) Hsame) as Ha.
  destruct (HealthCheck_range dial (backends s)) as [records bs] eqn:E.
  simpl in *. subst bs.
  split; [reflexivity|]. split; [reflexivity|]. split; [exact Hs|].
  split; [exact Hr|]. rewrite Ha. reflexivity.
Qed.

(** C7 at the three-backend pool, on a network where only [c:80]
    answers. *)
Lemma C7_HealthCheck_sets_liveness_to_the_probe_witness :
  (forall b, In b (backends (pool_abc 5)) ->
             String.eqb (url.Host (URL b)) "c:80" = String.eqb (url.Host (URL b)) "c:80")
  /\ map Alive (backends (snd (HealthCheck (fun h => String.eqb h "c:80") (pool_abc 5))))
     = [false; false; true].
Proof.
  split; [reflexivity|].
  rewrite (proj1 (C7_HealthCheck_sets_liveness_to_the_probe
                    (fun h => String.eqb h "c:80") (fun h => String.eqb h "c:80")
                    (pool_abc 5) (fun b _ => eq_refl))).
  reflexivity.
Defined.

(** C7 (counterexample): a pass over one unreachable backend writes two
    records, the probe's and the status record. *)
Lemma C7_two_records_for_an_unreachable_backend :
  List.length (backends (pool_a 0)) = 1%nat /\
  fst (HealthCheck unreachable (pool_a 0)) =
    [LogUnreachable; LogStatus (addr "a:80") "down"].
Proof. split; reflexivity. Qed.

(** ** MarkBackendStatus *)

Lemma MarkBackendStatus_range_no_match (bs : list Backend) (wanted : string)
  (alive : bool) :
  (forall b, In b bs -> url.String (URL b) <> wanted) ->
  MarkBackendStatus_range bs wanted alive = bs.
Proof.
  induction bs as [|b rest IH]; intros H; simpl; [reflexivity|].
  destruct (String.eqb_spec (url.String (URL b)) wanted) as [E|_].
  - exfalso. apply (H b); [left; reflexivity|exact E].
  - f_equal. apply IH. intros b' Hin. apply H. right. exact Hin.
Qed.

(** The scan stops at the first match and rewrites that backend only. *)
Lemma MarkBackendStatus_range_first_match (bs : list Backend) (wanted : string)
  (alive : bool) :
  (forall b, In b bs -> url.String (URL b) <> wanted) \/
  (exists pre b post,
      bs = pre ++ b :: post /\
      (forall b', In b' pre -> url.String (URL b') <> wanted) /\
      url.String (URL b) = wanted /\
      MarkBackendStatus_range bs wanted alive = pre ++ SetAlive b alive :: post).
Proof.
  induction bs as [|b rest IH]; [left; intros b []|].
  simpl. destruct (String.eqb_spec (url.String (URL b)) wanted) as [E|NE].
  - right. exists [], b, rest. repeat split; [intros b' []|exact E].
  - destruct IH as [IH|(pre & b0 & post & Hbs & Hpre & Hb0 & Hmark)].
    + left. intros b' [<-|Hin]; [exact NE|apply IH; exact Hin].
    + right. exists (b :: pre), b0, post. rewrite Hmark, Hbs.
      repeat split; [|exact Hb0].
      intros b' [<-|Hin]; [exact NE|apply Hpre; exact Hin].
Qed.

Lemma MarkBackendStatus_range_URLs (bs : list Backend) (wanted : string)
  (alive : bool) :
  map URL (MarkBackendStatus_range bs wanted alive) = map URL bs.
Proof.
  induction bs as [|b rest IH]; simpl; [reflexivity|].
  destruct (String.eqb (url.String (URL b)) wanted); simpl; [reflexivity|].
  f_equal. exact IH.
Qed.

Lemma len_MarkBackendStatus (s : ServerPool) (u : url.URL) (alive : bool) :
  len (MarkBackendStatus s u alive) = len s.
Proof.
  unfold len, MarkBackendStatus. simpl.
  rewrite <- (length_map URL), MarkBackendStatus_range_URLs, length_map.
  reflexivity.
Qed.

(** C10: when no backend's URL string equals the wanted one,
    [MarkBackendStatus] leaves the pool as it is (flags, addresses, list
    and cursor); in every call the cursor and the addresses stay, and the
    list is either unchanged or differs in the liveness flag of the first
    matching backend only. *)
Theorem C10_MarkBackendStatus_frame (s : ServerPool) (u : url.URL) (alive : bool) :
  ((forall b, In b (backends s) -> ~ matches u b) ->
   MarkBackendStatus s u alive = s)
  /\ current (MarkBackendStatus s u alive) = current s
  /\ map URL (backends (MarkBackendStatus s u alive)) = map URL (backends s)
  /\ (backends (MarkBackendStatus s u alive) = backends s
      \/ exists pre b post,
          backends s = pre ++ b :: post /\
          (forall b', In b' pre -> ~ matches u b') /\ matches u b /\
          backends (MarkBackendStatus s u alive) =
            pre ++ {| URL := URL b; Alive := alive |} :: post).
Proof.
  split; [|split; [|split]].
  - intros H. unfold MarkBackendStatus.
    rewrite MarkBackendStatus_range_no_match by exact H.
    destruct s; reflexivity.
  - reflexivity.
  - apply MarkBackendStatus_range_URLs.
  - unfold MarkBackendStatus, matches. simpl.
    destruct (MarkBackendStatus_range_first_match (backends s) (url.String u) alive)
      as [H|(pre & b & post & Hbs & Hpre & Hb & Hmark)].
    + left. apply MarkBackendStatus_range_no_match. exact H.
    + right. exists pre, b, post. repeat split; assumption.
Qed.

(** C10 at the two-backend pool and an address that is not configured. *)
Lemma C10_MarkBackendStatus_frame_witness :
  (forall b, In b (backends (pool_ab 7)) -> ~ matches (addr "c:80") b)
  /\ MarkBackendStatus (pool_ab 7) (addr "c:80") false = pool_ab 7.
Proof.
  assert (H : forall b, In b (backends (pool_ab 7)) -> ~ matches (addr "c:80") b).
  { intros b [<-|[<-|[]]]; unfold matches; simpl; discriminate. }
  split; [exact H|].
  exact (proj1 (C10_MarkBackendStatus_frame (pool_ab 7) (addr "c:80") false) H).
Defined.

Lemma MarkBackendStatus_range_at (bs : list Backend) (alive : bool) :
  forall j B,
    nth_error bs j = Some B ->
    (forall k b, (k < j)%nat -> nth_error bs k = Some b ->
                 url.String (URL b) <> url.String (URL B)) ->
    nth_error (MarkBackendStatus_range bs (url.String (URL B)) alive) j =
      Some (SetAlive B alive)
    /\ forall k, k <> j ->
         nth_error (MarkBackendStatus_range bs (url.String (URL B)) alive) k =
         nth_error bs k.
Proof.
  induction bs as [|b rest IH]; intros j B Hnth Hfirst.
  - destruct j; discriminate.
  - simpl. destruct j as [|j]; simpl in Hnth.
    + inversion Hnth; subst. rewrite String.eqb_refl. split; [reflexivity|].
      intros [|k] Hk; [congruence|reflexivity].
    + destruct (String.eqb_spec (url.String (URL b)) (url.String (URL B))) as [E|_].
      * exfalso. apply (Hfirst O b); [lia|reflexivity|exact E].
      * destruct (IH j B Hnth) as [Hj Hothers].
        { intros k b' Hk Hb'. apply (Hfirst (S k) b'); [lia|exact Hb']. }
        split; [exact Hj|].
        intros [|k] Hk; [reflexivity|]. simpl. apply Hothers. congruence.
Qed.

Lemma MarkBackendStatus_range_keeps_dead (bs : list Backend) (wanted : string) :
  forall j b,
    nth_error bs j = Some b -> Alive b = false ->
    exists b', nth_error (MarkBackendStatus_range bs wanted false) j = Some b'
               /\ Alive b' = false.
Proof.
  induction bs as [|b0 rest IH]; intros j b Hnth Ha.
  - destruct j; discriminate.
  - simpl. destruct (String.eqb (url.String (URL b0)) wanted).
    + destruct j as [|j]; simpl in *.
      * eexists. split; reflexivity.
      * exists b. split; assumption.
    + destruct j as [|j]; simpl in *.
      * exists b. split; assumption.
      * apply (IH j b Hnth Ha).
Qed.

(** A backend that is dead stays dead along operations that do not
    restore it. *)
Lemma not_restored_dead (j : nat) (s s' : ServerPool) :
  not_restored j s s' ->
  (exists b, nth_error (backends s) j = Some b /\ Alive b = false) ->
  exists b, nth_error (backends s') j = Some b /\ Alive b = false.
Proof.
  intros Hsteps Hdead.
  induction Hsteps as [|s' H IH|s' u H IH|s' dial H IH Hprobe].
  - exact Hdead.
  - rewrite GetNextPeer_backends. exact IH.
  - destruct IH as (b & Hb & Ha).
    apply (MarkBackendStatus_range_keeps_dead _ (url.String u) j b Hb Ha).
  - destruct IH as (b & Hb & Ha).
    pose proof (HealthCheck_range_backends dial (backends s')) as Hbs.
    unfold HealthCheck.
    destruct (HealthCheck_range dial (backends s')) as [records bs].
    simpl in *. subst bs. exists (probed dial b). split.
    + rewrite nth_error_map, Hb. reflexivity.
    + simpl. apply Hprobe. exact Hb.
Qed.

(** C6 (amended): for a backend [B] that is the first of the pool with
    its address, [MarkBackendStatus(addr(B), false)] clears the liveness
    flag of [B] and changes no other backend and not the cursor, and
    after it, along pool operations none of which restores the liveness
    of [B], no [GetNextPeer] call hands out [B]. *)
Theorem C6_marked_dead_is_not_selected (s : ServerPool) (j : nat) (B : Backend) :
  first_with_its_address s j B ->
  let s' := MarkBackendStatus s (URL B) false in
  nth_error (backends s') j = Some {| URL := URL B; Alive := false |}
  /\ (forall k, k <> j -> nth_error (backends s') k = nth_error (backends s) k)
  /\ current s' = current s
  /\ forall s'', not_restored j s' s'' -> returned (GetNextPeer s'') <> Some j.
Proof.
  intros [Hnth Hfirst] s'.
  destruct (MarkBackendStatus_range_at (backends s) false j B Hnth Hfirst)
    as [Hj Hothers].
  split; [exact Hj|]. split; [exact Hothers|]. split; [reflexivity|].
  intros s'' Hsteps Hret.
  destruct (not_restored_dead j s' s'' Hsteps) as (b & Hb & Ha).
  { eexists. split; [exact Hj|reflexivity]. }
  destruct (GetNextPeer s'') as [[[k b']|] s3|p s3] eqn:Hget;
    simpl in Hret; try discriminate.
  inversion Hret; subst k.
  destruct (GetNextPeer_sound s'' j b' s3 Hget) as [Hb' Ha'].
  congruence.
Qed.

(** C6 at the two-backend pool, for its second backend, one selection
    after the mark. *)
Lemma C6_marked_dead_is_not_selected_witness :
  first_with_its_address (pool_ab 0) 1 (up "b:80")
  /\ returned
       (GetNextPeer
          (pool_of (GetNextPeer
                      (MarkBackendStatus (pool_ab 0) (addr "b:80") false))))
     <> Some 1%nat.
Proof.
  assert (H : first_with_its_address (pool_ab 0) 1 (up "b:80")).
  { split; [reflexivity|]. intros k b Hk Hb.
    destruct k as [|k]; [|lia]. inversion Hb; subst. unfold matches. simpl.
    discriminate. }
  split; [exact H|].
  apply (proj2 (proj2 (proj2 (C6_marked_dead_is_not_selected
                                (pool_ab 0) 1 (up "b:80") H)))).
  apply not_restored_GetNextPeer, not_restored_start.
Defined.

(** C6 (counterexample): with two backends configured with the same
    address, marking the address of the second one dead clears the flag
    of the first one, and the next [GetNextPeer] call hands out the
    second. *)
Lemma C6_same_address_counterexample :
  nth_error (backends (pool_aa 0)) 1 = Some (up "a:80") /\
  MarkBackendStatus (pool_aa 0) (URL (up "a:80")) false =
    {| backends := [down "a:80"; up "a:80"]; current := 0 |} /\
  returned (GetNextPeer (MarkBackendStatus (pool_aa 0) (URL (up "a:80")) false)) =
    Some 1%nat.
Proof. repeat split. Qed.

(** ** The empty pool *)

Lemma Split_comma_not_nil (s : string) : Split_comma s <> [].
Proof.
  induction s as [|c s IH]; simpl; [discriminate|].
  destruct (Ascii.eqb c ","); [discriminate|].
  destruct (Split_comma s); discriminate.
Qed.

Lemma configure_None (Parse : string -> option url.URL) (toks : list string) :
  fold_left (configure Parse) toks None = None.
Proof. induction toks as [|tok toks IH]; simpl; [reflexivity|exact IH]. Qed.

(** Every token that [main] accepts adds one backend. *)
Lemma configure_length (Parse : string -> option url.URL) (toks : list string) :
  forall s0 s,
    fold_left (configure Parse) toks (Some s0) = Some s ->
    List.length (backends s) = (List.length (backends s0) + List.length toks)%nat.
Proof.
  induction toks as [|tok toks IH]; intros s0 s H; simpl in H.
  - inversion H; subst. simpl. lia.
  - destruct (Parse tok) as [serverUrl|].
    + apply IH in H. rewrite H. unfold AddBackend. simpl.
      rewrite length_app. simpl. lia.
    + rewrite configure_None in H. discriminate.
Qed.

Lemma main_not_empty (Parse : string -> option url.URL) (serverList : string)
  (s : ServerPool) :
  main Parse serverList = Some s -> 0 < len s.
Proof.
  unfold main. destruct (String.length serverList =? 0)%nat; [discriminate|].
  intros H. apply configure_length in H.
  pose proof (Split_comma_not_nil serverList) as Hne.
  destruct (Split_comma serverList) as [|tok toks]; [congruence|].
  unfold len. rewrite H. simpl. lia.
Qed.

Lemma HealthCheck_len (dial : string -> bool) (s : ServerPool) :
  len (snd (HealthCheck dial s)) = len s.
Proof.
  unfold HealthCheck, len.
  pose proof (HealthCheck_range_backends dial (backends s)) as Hb.
  destruct (HealthCheck_range dial (backends s)) as [records bs].
  simpl in *. subst bs. rewrite length_map. reflexivity.
Qed.

(** No operation of a running balancer changes the number of backends. *)
Lemma serving_len (s0 s : ServerPool) : serving s0 s -> len s = len s0.
Proof.
  induction 1 as [|s H IH|s u H IH|s dial H IH].
  - reflexivity.
  - rewrite <- IH. apply len_same, GetNextPeer_backends.
  - rewrite <- IH. apply len_MarkBackendStatus.
  - rewrite <- IH. apply HealthCheck_len.
Qed.

Lemma GetNextPeer_loop_no_division_by_zero (s : ServerPool) (next : Z)
  (steps : nat) :
  0 < len s ->
  forall i s', GetNextPeer_loop s next i steps <> Panic DivideByZero s'.
Proof.
  intros Hlen. induction steps as [|steps IH]; intros i s'; simpl; [discriminate|].
  replace (len s =? 0) with false by (symmetry; apply Z.eqb_neq; lia).
  destruct (index s (Z.rem i (len s))) as [b|]; [|discriminate].
  destruct (IsAlive b); [discriminate|apply IH].
Qed.

(** C9 (amended): on a pool without backends [NextIndex] divides by zero
    in its increment expression and panics, and [GetNextPeer] panics too,
    in its call of [NextIndex]: its own loop, where the index reduction
    is, makes no iteration on such a pool.  On a pool with a backend
    [NextIndex] returns and [GetNextPeer] does not divide by zero.  A
    pool that [main] configured has a backend, and so has every pool the
    balancer passes through while serving. *)
Theorem C9_division_by_zero_on_the_empty_pool_only :
  (forall s, len s = 0 ->
     NextIndex s = Panic DivideByZero s /\
     GetNextPeer s = Panic DivideByZero s /\
     forall next, int_value next ->
       GetNextPeer_loop s next next (Z.to_nat (to_int (len s + next) - next))
       = Ok None s)
  /\ (forall s, 0 < len s ->
        (exists next s', NextIndex s = Ok next s') /\
        forall s', GetNextPeer s <> Panic DivideByZero s')
  /\ (forall Parse serverList s0 s,
        main Parse serverList = Some s0 -> serving s0 s ->
        0 < len s /\
        (exists next s', NextIndex s = Ok next s') /\
        forall s', GetNextPeer s <> Panic DivideByZero s').
Proof.
  assert (Hpos : forall s, 0 < len s ->
            (exists next s', NextIndex s = Ok next s') /\
            forall s', GetNextPeer s <> Panic DivideByZero s').
  { intros s Hlen. unfold GetNextPeer, NextIndex.
    replace (len s =? 0) with false by (symmetry; apply Z.eqb_neq; lia).
    split; [eauto|]. intros s'.
    apply GetNextPeer_loop_no_division_by_zero. exact Hlen. }
  split; [|split].
  - intros s Hlen. unfold GetNextPeer, NextIndex. rewrite Hlen. simpl.
    repeat split. intros next Hnext.
    rewrite to_int_id by exact Hnext. rewrite Z.sub_diag. reflexivity.
  - exact Hpos.
  - intros Parse serverList s0 s Hmain Hserving.
    assert (Hlen : 0 < len s).
    { rewrite (serving_len s0 s Hserving). exact (main_not_empty _ _ _ Hmain). }
    split; [exact Hlen|]. apply Hpos. exact Hlen.
Qed.

(** C9 at the pool that [main] configures from [a:80,b:80] and at the
    empty pool. *)
Lemma C9_division_by_zero_on_the_empty_pool_only_witness :
  main parse_any "a:80,b:80" = Some (pool_ab 0)
  /\ serving (pool_ab 0) (pool_of (GetNextPeer (pool_ab 0)))
  /\ 0 < len (pool_of (GetNextPeer (pool_ab 0)))
  /\ len empty_pool = 0
  /\ NextIndex empty_pool = Panic DivideByZero empty_pool.
Proof.
  assert (Hmain : main parse_any "a:80,b:80" = Some (pool_ab 0)) by reflexivity.
  assert (Hserving : serving (pool_ab 0) (pool_of (GetNextPeer (pool_ab 0))))
    by (apply serving_GetNextPeer, serving_start).
  split; [exact Hmain|]. split; [exact Hserving|]. split.
  - exact (proj1 (proj2 (proj2 C9_division_by_zero_on_the_empty_pool_only)
                    parse_any "a:80,b:80"%string (pool_ab 0) _ Hmain Hserving)).
  - split; [reflexivity|].
    exact (proj1 (proj1 C9_division_by_zero_on_the_empty_pool_only
                    empty_pool eq_refl)).
Defined.

(** C9 (counterexample): on the empty pool the panic of [GetNextPeer] is
    the one of [NextIndex]; entered with any counter, here 0, the loop of
    [GetNextPeer] makes no iteration and returns none, so the index
    reduction divides nothing by zero. *)
Lemma C9_the_index_reduction_is_not_reached :
  NextIndex empty_pool = Panic DivideByZero empty_pool /\
  GetNextPeer empty_pool = Panic DivideByZero empty_pool /\
  GetNextPeer_loop empty_pool 0 0 (Z.to_nat (to_int (len empty_pool + 0) - 0))
  = Ok None empty_pool.
Proof. repeat split. Qed.

(** ** Request contexts *)

Lemma GetRetry_WithValue_Retry (r : Request) (v : Z) :
  GetRetryFromContext (WithContext r (WithValue (Context r) Retry v)) = v.
Proof. reflexivity. Qed.

Lemma GetAttempts_WithValue_Retry (r : Request) (v : Z) :
  GetAttemptsFromContext (WithContext r (WithValue (Context r) Retry v)) =
  GetAttemptsFromContext r.
Proof. reflexivity. Qed.

Lemma GetAttempts_WithValue_Attempts (r : Request) (v : Z) :
  GetAttemptsFromContext (WithContext r (WithValue (Context r) Attempts v)) = v.
Proof. reflexivity. Qed.

Lemma GetRetry_WithValue_Attempts (r : Request) (v : Z) :
  GetRetryFromContext (WithContext r (WithValue (Context r) Attempts v)) =
  GetRetryFromContext r.
Proof. reflexivity. Qed.

(** ** The dispatcher: unfolding equations *)

Section DispatchFacts.

Variable transport : url.URL -> nat -> bool.

Lemma lb_S (fuel : nat) (s : ServerPool) (t : nat) (r : Request) :
  lb transport (S fuel) s t r =
  if GetAttemptsFromContext r >? 3 then
    Some {| trace := [EvLog LogMaxAttempts; EvWrite service_not_available];
            pool := s; ended := Replied service_not_available |}
  else
    match GetNextPeer s with
    | Panic p s' => Some {| trace := []; pool := s'; ended := Crashed p |}
    | Ok (Some (i, peer)) s' =>
        after [EvPeer (Some i)] (ServeHTTP transport fuel (URL peer) s' t r)
    | Ok None s' =>
        Some {| trace := [EvPeer None; EvWrite Service_not_available];
                pool := s'; ended := Replied Service_not_available |}
    end.
Proof. reflexivity. Qed.

Lemma ServeHTTP_S (fuel : nat) (u : url.URL) (s : ServerPool) (t : nat)
  (r : Request) :
  ServeHTTP transport (S fuel) u s t r =
  if transport u t then
    Some {| trace := [EvRoundTrip u true]; pool := s; ended := Served u |}
  else after [EvRoundTrip u false] (ErrorHandler transport fuel u s (S t) r).
Proof. reflexivity. Qed.

Lemma ErrorHandler_S (fuel : nat) (u : url.URL) (s : ServerPool) (t : nat)
  (r : Request) :
  ErrorHandler transport (S fuel) u s t r =
  if GetRetryFromContext r <? 3 then
    after [EvLog (LogTransportError (url.Host u)); EvSleep 10]
      (ServeHTTP transport fuel u s t
         (WithContext r
            (WithValue (Context r) Retry (to_int (GetRetryFromContext r + 1)))))
  else
    after [EvLog (LogTransportError (url.Host u)); EvMark u false;
           EvLog (LogAttempt (GetAttemptsFromContext r))]
      (lb transport fuel (MarkBackendStatus s u false) t
         (WithContext r
            (WithValue (Context r) Attempts
               (to_int (GetAttemptsFromContext r + 1))))).
Proof. reflexivity. Qed.

Lemma after_after (e1 e2 : list event) (x : option run) :
  after e1 (after e2 x) = after (e1 ++ e2) x.
Proof. destruct x as [x|]; simpl; [|reflexivity]. rewrite app_assoc. reflexivity. Qed.

Lemma after_Some (evs : list event) (x : option run) (y : run) :
  after evs x = Some y ->
  exists x', x = Some x' /\ trace y = evs ++ trace x' /\
             pool y = pool x' /\ ended y = ended x'.
Proof.
  destruct x as [x|]; simpl; [|discriminate].
  intros H. inversion H; subst. exists x. repeat split.
Qed.

(** *** Enough fuel gives a run *)

Lemma fuel_for_budget (r : Request) : fuel_for r = (3 * budget r + 1)%nat.
Proof. reflexivity. Qed.

Lemma dispatch_total (fuel : nat) :
  (forall s t r, ints r -> (3 * budget r + 1 <= fuel)%nat ->
                 exists x, lb transport fuel s t r = Some x)
  /\ (forall u s t r, ints r -> GetAttemptsFromContext r <= 3 ->
                      (3 * budget r <= fuel)%nat ->
                      exists x, ServeHTTP transport fuel u s t r = Some x)
  /\ (forall u s t r, ints r -> GetAttemptsFromContext r <= 3 ->
                      (3 * budget r - 1 <= fuel)%nat ->
                      exists x, ErrorHandler transport fuel u s t r = Some x).
Proof.
  induction fuel as [|fuel (IHlb & IHserve & IHerr)].
  - split; [|split]; intros.
    + lia.
    + unfold budget in *. lia.
    + unfold budget in *. lia.
  - split; [|split].
    + intros s t r Hvals Hfuel. rewrite lb_S.
      destruct (GetAttemptsFromContext r >? 3) eqn:Ha; [eauto|].
      rewrite Z.gtb_ltb in Ha. apply Z.ltb_ge in Ha.
      destruct (GetNextPeer s) as [[[i peer]|] s'|p s']; [|eauto|eauto].
      destruct (IHserve (URL peer) s' t r Hvals Ha) as [x Hx]; [lia|].
      rewrite Hx. simpl. eauto.
    + intros u s t r Hvals Ha Hfuel. rewrite ServeHTTP_S.
      destruct (transport u t); [eauto|].
      destruct (IHerr u s (S t) r Hvals Ha) as [x Hx]; [lia|].
      rewrite Hx. simpl. eauto.
    + intros u s t r [Hia Hir] Ha Hfuel. rewrite ErrorHandler_S.
      destruct (GetRetryFromContext r <? 3) eqn:Hr.
      * apply Z.ltb_lt in Hr.
        set (r1 := WithContext r
                     (WithValue (Context r) Retry
                        (to_int (GetRetryFromContext r + 1)))).
        assert (E : to_int (GetRetryFromContext r + 1) = GetRetryFromContext r + 1)
          by (apply to_int_id; unfold int_value in *; pow2; lia).
        assert (Hr1 : GetRetryFromContext r1 = GetRetryFromContext r + 1)
          by (unfold r1; rewrite GetRetry_WithValue_Retry; exact E).
        assert (Ha1 : GetAttemptsFromContext r1 = GetAttemptsFromContext r)
          by reflexivity.
        destruct (IHserve u s t r1) as [x Hx].
        { unfold ints. rewrite Hr1, Ha1. unfold int_value in *. pow2. lia. }
        { rewrite Ha1. exact Ha. }
        { unfold budget in *. rewrite Hr1, Ha1. lia. }
        rewrite Hx. simpl. eauto.
      * apply Z.ltb_ge in Hr.
        set (r2 := WithContext r
                     (WithValue (Context r) Attempts
                        (to_int (GetAttemptsFromContext r + 1)))).
        assert (E : to_int (GetAttemptsFromContext r + 1)
                    = GetAttemptsFromContext r + 1)
          by (apply to_int_id; unfold int_value in *; pow2; lia).
        assert (Ha2 : GetAttemptsFromContext r2 = GetAttemptsFromContext r + 1)
          by (unfold r2; rewrite GetAttempts_WithValue_Attempts; exact E).
        assert (Hr2 : GetRetryFromContext r2 = GetRetryFromContext r)
          by reflexivity.
        destruct (IHlb (MarkBackendStatus s u false) t r2) as [x Hx].
        { unfold ints. rewrite Hr2, Ha2. unfold int_value in *. pow2. lia. }
        { unfold budget in *. rewrite Hr2, Ha2. lia. }
        rewrite Hx. simpl. eauto.
Qed.

Lemma lb_total (fuel : nat) (s : ServerPool) (t : nat) (r : Request) :
  ints r -> (fuel_for r <= fuel)%nat ->
  exists x, lb transport fuel s t r = Some x.
Proof.
  intros Hvals Hfuel. rewrite fuel_for_budget in Hfuel.
  apply (proj1 (dispatch_total fuel)); assumption.
Qed.

Lemma lb_over_the_ceiling (fuel : nat) (s : ServerPool) (t : nat) (r : Request) :
  3 < GetAttemptsFromContext r ->
  lb transport (S fuel) s t r =
    Some {| trace := [EvLog LogMaxAttempts; EvWrite service_not_available];
            pool := s; ended := Replied service_not_available |}.
Proof.
  intros H. rewrite lb_S.
  replace (GetAttemptsFromContext r >? 3) with true; [reflexivity|].
  symmetry. rewrite Z.gtb_ltb. apply Z.ltb_lt. exact H.
Qed.

Lemma lb_no_live_peer (fuel : nat) (s s' : ServerPool) (t : nat) (r : Request) :
  GetAttemptsFromContext r <= 3 -> GetNextPeer s = Ok None s' ->
  lb transport (S fuel) s t r =
    Some {| trace := [EvPeer None; EvWrite Service_not_available];
            pool := s'; ended := Replied Service_not_available |}.
Proof.
  intros H Hnone. rewrite lb_S, Hnone.
  replace (GetAttemptsFromContext r >? 3) with false; [reflexivity|].
  symmetry. rewrite Z.gtb_ltb. apply Z.ltb_ge. exact H.
Qed.

End DispatchFacts.

(** ** The dispatcher: what a run writes *)

Lemma writes_app (e1 e2 : list event) : writes (e1 ++ e2) = writes e1 ++ writes e2.
Proof.
  induction e1 as [|e e1 IH]; simpl; [reflexivity|].
  destruct e; simpl; rewrite IH; reflexivity.
Qed.

Lemma peers_app (e1 e2 : list event) : peers (e1 ++ e2) = peers e1 ++ peers e2.
Proof.
  induction e1 as [|e e1 IH]; simpl; [reflexivity|].
  destruct e as [| [i|] | | | |]; simpl; rewrite IH; reflexivity.
Qed.

Lemma attempt_logs_app (e1 e2 : list event) :
  attempt_logs (e1 ++ e2) = attempt_logs e1 ++ attempt_logs e2.
Proof.
  induction e1 as [|e e1 IH]; simpl; [reflexivity|].
  destruct e as [[]| | | | |]; simpl; rewrite IH; reflexivity.
Qed.

Lemma closes_after (evs tr : list event) (e : ending) :
  writes evs = [] -> closes tr e -> closes (evs ++ tr) e.
Proof.
  intros Hevs. destruct e as [u|resp|p]; simpl.
  - intros [Hw [before ->]]. split.
    + rewrite writes_app, Hevs, Hw. reflexivity.
    + exists (evs ++ before). rewrite app_assoc. reflexivity.
  - intros (before & Hw & H). exists (evs ++ before). split.
    + rewrite writes_app, Hevs, Hw. reflexivity.
    + destruct H as [[-> ->]|[-> ->]]; [left|right];
        rewrite app_assoc; split; reflexivity.
  - intros Hw. rewrite writes_app, Hevs, Hw. reflexivity.
Qed.

Section DispatchTraces.

Variable transport : url.URL -> nat -> bool.

Lemma dispatch_closes (fuel : nat) :
  (forall s t r x, lb transport fuel s t r = Some x ->
                   closes (trace x) (ended x))
  /\ (forall u s t r x, ServeHTTP transport fuel u s t r = Some x ->
                        closes (trace x) (ended x))
  /\ (forall u s t r x, ErrorHandler transport fuel u s t r = Some x ->
                        closes (trace x) (ended x)).
Proof.
  induction fuel as [|fuel (IHlb & IHserve & IHerr)].
  - repeat split; intros; discriminate.
  - split; [|split].
    + intros s t r x. rewrite lb_S.
      destruct (GetAttemptsFromContext r >? 3).
      { intros H. inversion H; subst. simpl. exists []. split; [reflexivity|].
        left. split; reflexivity. }
      destruct (GetNextPeer s) as [[[i peer]|] s'|p s'].
      * intros H. apply after_Some in H.
        destruct H as (x' & Hx' & Ht & _ & He). rewrite Ht, He.
        apply closes_after; [reflexivity|]. eapply IHserve. exact Hx'.
      * intros H. inversion H; subst. simpl. exists []. split; [reflexivity|].
        right. split; reflexivity.
      * intros H. inversion H; subst. reflexivity.
    + intros u s t r x. rewrite ServeHTTP_S. destruct (transport u t).
      * intros H. inversion H; subst. simpl. split; [reflexivity|].
        exists []. reflexivity.
      * intros H. apply after_Some in H.
        destruct H as (x' & Hx' & Ht & _ & He). rewrite Ht, He.
        apply closes_after; [reflexivity|]. eapply IHerr. exact Hx'.
    + intros u s t r x. rewrite ErrorHandler_S.
      destruct (GetRetryFromContext r <? 3); intros H; apply after_Some in H;
        destruct H as (x' & Hx' & Ht & _ & He); rewrite Ht, He;
        (apply closes_after; [reflexivity|]).
      * eapply IHserve. exact Hx'.
      * eapply IHlb. exact Hx'.
Qed.

(** C8: [lb] entered with the attempts counter above 3 writes a 503 with
    a plain-text body, and so does [lb] when [GetNextPeer] returns none.
    Whatever the transport does, the handling of a request ends in one of
    three ways; when it ends with an error response, that response is a
    503 with a plain-text body, it is the only response written and the
    last event of the run, and it was written for one of these two
    reasons.  No other event writes a response: a run on which forwarding
    attempts failed and that ends with a backend's response wrote no
    error response. *)
Theorem C8_terminal_failures_are_503 (s : ServerPool) (t : nat) (r : Request)
  (fuel : nat) :
  (3 < GetAttemptsFromContext r ->
   option_map ended (lb transport (S fuel) s t r) =
     Some (Replied {| StatusCode := 503;
                      ContentType := "text/plain; charset=utf-8";
                      Body := "service not available" ++ newline |}))
  /\ (GetAttemptsFromContext r <= 3 ->
      forall s', GetNextPeer s = Ok None s' ->
      option_map ended (lb transport (S fuel) s t r) =
        Some (Replied {| StatusCode := 503;
                         ContentType := "text/plain; charset=utf-8";
                         Body := "Service not available" ++ newline |}))
  /\ (ints r -> (fuel_for r <= fuel)%nat ->
      exists x,
        lb transport fuel s t r = Some x /\
        (forall resp, ended x = Replied resp ->
           StatusCode resp = 503 /\
           ContentType resp = "text/plain; charset=utf-8"%string /\
           writes (trace x) = [resp] /\
           exists before,
             writes before = [] /\
             (trace x = before ++ [EvLog LogMaxAttempts; EvWrite resp] \/
              trace x = before ++ [EvPeer None; EvWrite resp])) /\
        ((forall resp, ended x <> Replied resp) -> writes (trace x) = [])).
Proof.
  split; [|split].
  - intros Ha. rewrite lb_over_the_ceiling by exact Ha. reflexivity.
  - intros Ha s' Hnone. rewrite (lb_no_live_peer _ _ _ s') by assumption.
    reflexivity.
  - intros Hvals Hfuel.
    destruct (lb_total transport fuel s t r Hvals Hfuel) as [x Hx].
    exists x. split; [exact Hx|].
    pose proof (proj1 (dispatch_closes fuel) s t r x Hx) as Hc.
    split.
    + intros resp He. rewrite He in Hc. simpl in Hc.
      destruct Hc as (before & Hw & [[Ht ->]|[Ht ->]]);
        (split; [reflexivity|]); (split; [reflexivity|]);
        (split; [rewrite Ht, writes_app, Hw; reflexivity|]);
        exists before; (split; [exact Hw|]); [left|right]; exact Ht.
    + intros Hne. destruct (ended x) as [u|resp|p]; simpl in Hc.
      * apply Hc.
      * exfalso. apply (Hne resp). reflexivity.
      * exact Hc.
Qed.

End DispatchTraces.

Lemma ints_fresh_request : ints fresh_request.
Proof. split; (split; [apply Z.leb_le|apply Z.ltb_lt]; reflexivity). Qed.

(** C8 at a request on the two-backend pool when every forwarding
    attempt fails. *)
Lemma C8_terminal_failures_are_503_witness :
  ints fresh_request /\ (fuel_for fresh_request <= 19)%nat /\
  exists x, lb refused 19 (pool_ab 0) 0 fresh_request = Some x /\
            ended x = Replied Service_not_available /\
            writes (trace x) = [Service_not_available].
Proof.
  split; [exact ints_fresh_request|]. split; [apply Nat.le_refl|].
  destruct (proj2 (proj2 (C8_terminal_failures_are_503 refused (pool_ab 0) 0
                            fresh_request 19))
              ints_fresh_request (Nat.le_refl _)) as (x & Hx & Hreplied & _).
  exists x. split; [exact Hx|].
  assert (He : ended x = Replied Service_not_available).
  { vm_compute in Hx. inversion Hx. reflexivity. }
  split; [exact He|].
  exact (proj1 (proj2 (proj2 (Hreplied _ He)))).
Defined.

(** ** The dispatcher: the attempts ceiling *)

Lemma GetNextPeer_moves_the_cursor (s : ServerPool) :
  in_range s ->
  exists o s',
    GetNextPeer s = Ok o s' /\ backends s' = backends s /\
    0 <= current s' /\ (current s' <= current s + 1 \/ current s' < len s).
Proof.
  intros H. rewrite (GetNextPeer_in_range s H).
  destruct (in_range_store s H) as (Hlen & Hnext & Hmax).
  destruct H as (Hl & Hc & Hm).
  assert (H1 : 0 <= 1 mod len s < len s) by (apply Z.mod_pos_bound; lia).
  assert (H2 : 1 mod len s <= 1) by (apply Z.mod_le; lia).
  set (next := current s + 1 mod len s) in *.
  destruct (GetNextPeer_loop_scan (store s next) next Hlen
              (List.length (backends s)) next Hnext Hmax)
    as [[Hnone _]|(k & b & _ & _ & _ & _ & Hsome)].
  - rewrite Hnone. do 2 eexists. split; [reflexivity|]. simpl.
    split; [reflexivity|]. split; [lia|]. left. unfold next. lia.
  - rewrite Hsome. do 2 eexists. split; [reflexivity|].
    assert (Hidx : 0 <= (next + Z.of_nat k) mod len s < len s)
      by (apply Z.mod_pos_bound; lia).
    replace (len (store s next)) with (len s) by reflexivity.
    destruct (next + Z.of_nat k =? next); simpl.
    + split; [reflexivity|]. split; [lia|]. left. unfold next. lia.
    + split; [reflexivity|]. split; [lia|]. right. lia.
Qed.

Lemma room_for_in_range (k : nat) (s : ServerPool) :
  room_for (S k) s -> in_range s.
Proof. unfold room_for, in_range. lia. Qed.

Lemma room_for_MarkBackendStatus (k : nat) (s : ServerPool) (u : url.URL)
  (alive : bool) :
  room_for k s -> room_for k (MarkBackendStatus s u alive).
Proof.
  unfold room_for. rewrite len_MarkBackendStatus. simpl. exact (fun H => H).
Qed.

Section Ceiling.

Variable transport : url.URL -> nat -> bool.

(** With room for the selections that the attempts counter still allows,
    no selection panics. *)
Lemma dispatch_does_not_crash (fuel : nat) :
  (forall s t r x,
      int_value (GetAttemptsFromContext r) ->
      room_for (Z.to_nat (4 - GetAttemptsFromContext r)) s ->
      lb transport fuel s t r = Some x -> forall p, ended x <> Crashed p)
  /\ (forall u s t r x,
         int_value (GetAttemptsFromContext r) ->
         GetAttemptsFromContext r <= 3 ->
         room_for (Z.to_nat (3 - GetAttemptsFromContext r)) s ->
         ServeHTTP transport fuel u s t r = Some x ->
         forall p, ended x <> Crashed p)
  /\ (forall u s t r x,
         int_value (GetAttemptsFromContext r) ->
         GetAttemptsFromContext r <= 3 ->
         room_for (Z.to_nat (3 - GetAttemptsFromContext r)) s ->
         ErrorHandler transport fuel u s t r = Some x ->
         forall p, ended x <> Crashed p).
Proof.
  induction fuel as [|fuel (IHlb & IHserve & IHerr)].
  - repeat split; intros; discriminate.
  - split; [|split].
    + intros s t r x Hrange Hroom. rewrite lb_S.
      destruct (GetAttemptsFromContext r >? 3) eqn:Ha.
      { intros H. inversion H; subst. discriminate. }
      rewrite Z.gtb_ltb in Ha. apply Z.ltb_ge in Ha.
      replace (Z.to_nat (4 - GetAttemptsFromContext r))
        with (S (Z.to_nat (3 - GetAttemptsFromContext r))) in Hroom by lia.
      destruct (GetNextPeer_moves_the_cursor s (room_for_in_range _ _ Hroom))
        as (o & s' & Hget & Hbs & Hcur & Hmove).
      rewrite Hget. destruct o as [[i peer]|].
      * intros H. apply after_Some in H.
        destruct H as (x' & Hx' & _ & _ & He). rewrite He.
        apply (IHserve (URL peer) s' t r x' Hrange Ha); [|exact Hx'].
        unfold room_for in *. rewrite (len_same _ _ Hbs). lia.
      * intros H. inversion H; subst. discriminate.
    + intros u s t r x Hrange Ha Hroom. rewrite ServeHTTP_S.
      destruct (transport u t).
      * intros H. inversion H; subst. discriminate.
      * intros H. apply after_Some in H.
        destruct H as (x' & Hx' & _ & _ & He). rewrite He.
        apply (IHerr u s (S t) r x' Hrange Ha Hroom Hx').
    + intros u s t r x Hrange Ha Hroom. rewrite ErrorHandler_S.
      destruct (GetRetryFromContext r <? 3); intros H; apply after_Some in H;
        destruct H as (x' & Hx' & _ & _ & He); rewrite He.
      * refine (IHserve u s t _ x' _ _ _ Hx');
          [exact Hrange|exact Ha|exact Hroom].
      * assert (E : to_int (GetAttemptsFromContext r + 1)
                    = GetAttemptsFromContext r + 1)
          by (apply to_int_id; unfold int_value in *; pow2; lia).
        rewrite E in Hx'.
        set (r2 := WithContext r
                     (WithValue (Context r) Attempts
                        (GetAttemptsFromContext r + 1))) in Hx'.
        assert (Ha2 : GetAttemptsFromContext r2 = GetAttemptsFromContext r + 1)
          by reflexivity.
        refine (IHlb (MarkBackendStatus s u false) t r2 x' _ _ Hx').
        -- rewrite Ha2. unfold int_value in *. pow2. lia.
        -- rewrite Ha2.
           replace (4 - (GetAttemptsFromContext r + 1))
             with (3 - GetAttemptsFromContext r) by lia.
           apply room_for_MarkBackendStatus. exact Hroom.
Qed.

Hypothesis always_fails : forall u k, transport u k = false.

(** When every forwarding attempt fails, each selected peer is exhausted
    and logged with the attempts value of its turn. *)
Lemma dispatch_counts_attempts (fuel : nat) :
  (forall s t r x,
      int_value (GetAttemptsFromContext r) ->
      lb transport fuel s t r = Some x ->
      (forall u, ended x <> Served u) /\
      (List.length (peers (trace x)) <= Z.to_nat (4 - GetAttemptsFromContext r))%nat /\
      ((forall p, ended x <> Crashed p) ->
       attempt_logs (trace x) =
       count_from (GetAttemptsFromContext r) (List.length (peers (trace x)))))
  /\ (forall u s t r x,
         int_value (GetAttemptsFromContext r) ->
         GetAttemptsFromContext r <= 3 ->
         ServeHTTP transport fuel u s t r = Some x ->
         (forall v, ended x <> Served v) /\
         (S (List.length (peers (trace x)))
          <= Z.to_nat (4 - GetAttemptsFromContext r))%nat /\
         ((forall p, ended x <> Crashed p) ->
          attempt_logs (trace x) =
          count_from (GetAttemptsFromContext r) (S (List.length (peers (trace x))))))
  /\ (forall u s t r x,
         int_value (GetAttemptsFromContext r) ->
         GetAttemptsFromContext r <= 3 ->
         ErrorHandler transport fuel u s t r = Some x ->
         (forall v, ended x <> Served v) /\
         (S (List.length (peers (trace x)))
          <= Z.to_nat (4 - GetAttemptsFromContext r))%nat /\
         ((forall p, ended x <> Crashed p) ->
          attempt_logs (trace x) =
          count_from (GetAttemptsFromContext r) (S (List.length (peers (trace x)))))).
Proof.
  induction fuel as [|fuel (IHlb & IHserve & IHerr)].
  - repeat split; intros; discriminate.
  - split; [|split].
    + intros s t r x Hrange. rewrite lb_S.
      destruct (GetAttemptsFromContext r >? 3) eqn:Ha.
      { intros H. inversion H; subst. simpl.
        split; [discriminate|]. split; [lia|reflexivity]. }
      rewrite Z.gtb_ltb in Ha. apply Z.ltb_ge in Ha.
      destruct (GetNextPeer s) as [[[i peer]|] s'|p s'].
      * intros H. apply after_Some in H.
        destruct H as (x' & Hx' & Ht & _ & He). rewrite Ht, He.
        destruct (IHserve (URL peer) s' t r x' Hrange Ha Hx') as (Hs & Hp & Hl).
        split; [exact Hs|]. simpl. split; [exact Hp|exact Hl].
      * intros H. inversion H; subst. simpl.
        split; [discriminate|]. split; [lia|reflexivity].
      * intros H. inversion H; subst. simpl.
        split; [discriminate|]. split; [lia|].
        intros Hc. exfalso. apply (Hc p). reflexivity.
    + intros u s t r x Hrange Ha. rewrite ServeHTTP_S, always_fails.
      intros H. apply after_Some in H.
      destruct H as (x' & Hx' & Ht & _ & He). rewrite Ht, He.
      exact (IHerr u s (S t) r x' Hrange Ha Hx').
    + intros u s t r x Hrange Ha. rewrite ErrorHandler_S.
      destruct (GetRetryFromContext r <? 3); intros H; apply after_Some in H;
        destruct H as (x' & Hx' & Ht & _ & He); rewrite Ht, He.
      * refine (IHserve u s t _ x' _ _ Hx'); [exact Hrange|exact Ha].
      * assert (E : to_int (GetAttemptsFromContext r + 1)
                    = GetAttemptsFromContext r + 1)
          by (apply to_int_id; unfold int_value in *; pow2; lia).
        rewrite E in Hx'.
        set (r2 := WithContext r
                     (WithValue (Context r) Attempts
                        (GetAttemptsFromContext r + 1))) in Hx'.
        assert (Ha2 : GetAttemptsFromContext r2 = GetAttemptsFromContext r + 1)
          by reflexivity.
        assert (Hrange2 : int_value (GetAttemptsFromContext r2))
          by (rewrite Ha2; unfold int_value in *; pow2; lia).
        destruct (IHlb (MarkBackendStatus s u false) t r2 x' Hrange2 Hx')
          as (Hs & Hp & Hl).
        rewrite Ha2 in Hp, Hl.
        split; [exact Hs|].
        cbn [app peers attempt_logs count_from List.length].
        split; [lia|].
        intros Hc. rewrite (Hl Hc). reflexivity.
Qed.

End Ceiling.

Lemma distinct_le (l : list nat) :
  (List.length (nodup Nat.eq_dec l) <= List.length l)%nat.
Proof.
  apply NoDup_incl_length; [apply NoDup_nodup|].
  intros i Hi. apply nodup_In in Hi. exact Hi.
Qed.

(** C2: [lb] entered with an attempts counter above 3 (the counter reads
    1 when the context has none) writes a 503 at once, without selecting
    a peer or touching the pool.  A request that arrives without counters
    and whose forwarding attempts all fail ends, unless a peer selection
    panics, with exactly one response, a 503, after at most 3 peers were
    selected (so at most 4 distinct backends were tried), and the
    attempts values logged at the exhaustion of each peer are 1, 2, ...
    in steps of one.  No selection panics when the pool has room for
    three of them under the top of [int]. *)
Theorem C2_attempts_ceiling (transport : url.URL -> nat -> bool)
  (s : ServerPool) (t : nat) (fuel : nat) :
  (forall r, 3 < GetAttemptsFromContext r ->
     lb transport (S fuel) s t r =
       Some {| trace := [EvLog LogMaxAttempts;
                         EvWrite (http_Error "service not available" 503)];
               pool := s;
               ended := Replied (http_Error "service not available" 503) |})
  /\ GetAttemptsFromContext fresh_request = 1
  /\ ((forall u k, transport u k = false) ->
      (fuel_for fresh_request <= fuel)%nat ->
      exists x,
        lb transport fuel s t fresh_request = Some x /\
        (room_for 3 s -> forall p, ended x <> Crashed p) /\
        ((forall p, ended x <> Crashed p) ->
         exists resp,
           ended x = Replied resp /\ StatusCode resp = 503 /\
           writes (trace x) = [resp] /\
           (List.length (peers (trace x)) <= 3)%nat /\
           (List.length (nodup Nat.eq_dec (peers (trace x))) <= 4)%nat /\
           attempt_logs (trace x) =
             count_from 1 (List.length (peers (trace x))))).
Proof.
  split; [|split; [reflexivity|]].
  - intros r Hr. apply lb_over_the_ceiling. exact Hr.
  - intros Hfail Hfuel.
    destruct (lb_total transport fuel s t fresh_request ints_fresh_request Hfuel)
      as [x Hx].
    exists x. split; [exact Hx|]. split.
    + intros Hroom.
      apply (proj1 (dispatch_does_not_crash transport fuel) s t fresh_request x);
        [exact (proj1 ints_fresh_request)|exact Hroom|exact Hx].
    + intros Hnocrash.
      destruct (proj1 (dispatch_counts_attempts transport Hfail fuel)
                  s t fresh_request x (proj1 ints_fresh_request) Hx)
        as (Hnoserve & Hpeers & Hlogs).
      pose proof (proj1 (dispatch_closes transport fuel) s t fresh_request x Hx)
        as Hc.
      destruct (ended x) as [u|resp|p] eqn:He.
      * exfalso. apply (Hnoserve u). reflexivity.
      * exists resp. split; [reflexivity|]. simpl in Hc.
        destruct Hc as (before & Hw & Hend).
        assert (Hstatus : StatusCode resp = 503)
          by (destruct Hend as [[_ ->]|[_ ->]]; reflexivity).
        assert (Hwrites : writes (trace x) = [resp])
          by (destruct Hend as [[-> _]|[-> _]]; rewrite writes_app, Hw;
              reflexivity).
        change (Z.to_nat (4 - GetAttemptsFromContext fresh_request))
          with 3%nat in Hpeers.
        split; [exact Hstatus|]. split; [exact Hwrites|].
        split; [exact Hpeers|]. split.
        -- pose proof (distinct_le (peers (trace x))). lia.
        -- apply Hlogs. intros p. discriminate.
      * exfalso. apply (Hnocrash p). reflexivity.
Qed.

Lemma room_for_pool_ab : room_for 3 (pool_ab 0).
Proof. unfold room_for. cbn. pow2. lia. Qed.

(** C2 at a request on the two-backend pool when every forwarding
    attempt fails: both backends are tried, then the pool has no live
    peer. *)
Lemma C2_attempts_ceiling_witness :
  (forall u k, refused u k = false) /\
  (fuel_for fresh_request <= 19)%nat /\
  room_for 3 (pool_ab 0) /\
  exists x, lb refused 19 (pool_ab 0) 0 fresh_request = Some x /\
            writes (trace x) = [Service_not_available] /\
            peers (trace x) = [1%nat; 0%nat] /\
            attempt_logs (trace x) = [1; 2].
Proof.
  split; [reflexivity|]. split; [apply Nat.le_refl|].
  split; [exact room_for_pool_ab|].
  destruct (proj2 (proj2 (C2_attempts_ceiling refused (pool_ab 0) 0 19))
              (fun _ _ => eq_refl) (Nat.le_refl _))
    as (x & Hx & Hsafe & Hrun).
  exists x. split; [exact Hx|].
  destruct (Hrun (Hsafe room_for_pool_ab)) as (resp & He & _ & Hw & _ & _ & Hl).
  vm_compute in Hx. inversion Hx as [Hx']. rewrite <- Hx' in *.
  repeat split.
Defined.

(** ** The dispatcher: retries on one backend *)

Section Retries.

Variable transport : url.URL -> nat -> bool.
Variable serverUrl : url.URL.
Hypothesis always_fails : forall k, transport serverUrl k = false.

Lemma ServeHTTP_retries (k : nat) :
  forall (fuel : nat) (s : ServerPool) (t : nat) (r : Request),
    GetRetryFromContext r = 3 - Z.of_nat k ->
    int_value (GetRetryFromContext r) ->
    exists r',
      GetRetryFromContext r' = 3 /\
      GetAttemptsFromContext r' = to_int (GetAttemptsFromContext r + 1) /\
      ServeHTTP transport (2 * k + 2 + fuel) serverUrl s t r =
        after (List.concat (repeat (retry_round serverUrl) k)
               ++ last_round serverUrl (GetAttemptsFromContext r))
              (lb transport fuel (MarkBackendStatus s serverUrl false)
                  (t + k + 1) r').
Proof.
  induction k as [|k IH]; intros fuel s t r Hr Hrange.
  - exists (WithContext r
              (WithValue (Context r) Attempts
                 (to_int (GetAttemptsFromContext r + 1)))).
    split; [rewrite GetRetry_WithValue_Attempts; rewrite Hr; reflexivity|].
    split; [reflexivity|].
    change (2 * 0 + 2 + fuel)%nat with (S (S fuel)).
    rewrite ServeHTTP_S, always_fails, ErrorHandler_S.
    replace (GetRetryFromContext r <? 3) with false
      by (symmetry; apply Z.ltb_ge; rewrite Hr; lia).
    rewrite after_after. replace (t + 0 + 1)%nat with (S t) by lia.
    reflexivity.
  - replace (2 * S k + 2 + fuel)%nat with (S (S (2 * k + 2 + fuel))) by lia.
    rewrite ServeHTTP_S, always_fails, ErrorHandler_S.
    replace (GetRetryFromContext r <? 3) with true
      by (symmetry; apply Z.ltb_lt; rewrite Hr; lia).
    assert (E : to_int (GetRetryFromContext r + 1) = 3 - Z.of_nat k).
    { rewrite to_int_id; [rewrite Hr; lia|].
      unfold int_value in *. pow2. lia. }
    rewrite E.
    set (r1 := WithContext r (WithValue (Context r) Retry (3 - Z.of_nat k))).
    destruct (IH fuel s (S t) r1) as (r' & Hr' & Ha' & Hrun);
      [reflexivity| |].
    { unfold r1. rewrite GetRetry_WithValue_Retry.
      unfold int_value in *. pow2. lia. }
    exists r'. split; [exact Hr'|]. split; [exact Ha'|].
    rewrite Hrun, !after_after.
    replace (S t + k + 1)%nat with (t + S k + 1)%nat by lia.
    cbn [repeat List.concat]. rewrite <- (app_assoc (retry_round serverUrl)).
    reflexivity.
Qed.

End Retries.

(** C5 (amended): a backend whose forwarder always fails and that is
    handed a request whose retries counter reads [retries] (0 when the
    context has none, as for the first backend a request is dispatched
    to) is retried [3 - retries] times, each retry after a failed
    attempt, its log record and the 10 ms delay; the attempt after the
    last retry fails too, and only then is the backend marked dead with
    [MarkBackendStatus(serverUrl, false)], after which [lb] is entered
    again, on the pool with the mark, with the attempts counter
    incremented and the retries counter still at 3; what [lb] does then
    ends the run. *)
Theorem C5_retries_before_the_mark (transport : url.URL -> nat -> bool)
  (serverUrl : url.URL) (s : ServerPool) (t : nat) (r : Request) (fuel : nat) :
  (forall k, transport serverUrl k = false) ->
  0 <= GetRetryFromContext r <= 3 ->
  1 <= GetAttemptsFromContext r <= 3 ->
  (7 <= fuel)%nat ->
  let retries := Z.to_nat (3 - GetRetryFromContext r) in
  GetRetryFromContext fresh_request = 0 /\
  exists r' x',
    GetRetryFromContext r' = 3 /\
    GetAttemptsFromContext r' = GetAttemptsFromContext r + 1 /\
    lb transport fuel (MarkBackendStatus s serverUrl false)
       (t + retries + 1) r' = Some x' /\
    ServeHTTP transport (2 * retries + 2 + fuel) serverUrl s t r =
      Some {| trace :=
                List.concat
                  (repeat [EvRoundTrip serverUrl false;
                           EvLog (LogTransportError (url.Host serverUrl));
                           EvSleep 10] retries)
                ++ [EvRoundTrip serverUrl false;
                    EvLog (LogTransportError (url.Host serverUrl));
                    EvMark serverUrl false;
                    EvLog (LogAttempt (GetAttemptsFromContext r))]
                ++ trace x';
              pool := pool x';
              ended := ended x' |}.
Proof.
  intros Hfail Hr Ha Hfuel retries. split; [reflexivity|].
  destruct (ServeHTTP_retries transport serverUrl Hfail retries fuel s t r)
    as (r' & Hr' & Ha' & Hrun).
  { unfold retries. lia. }
  { unfold int_value. pow2. lia. }
  rewrite to_int_id in Ha' by (unfold int_value; pow2; lia).
  destruct (lb_total transport fuel (MarkBackendStatus s serverUrl false)
              (t + retries + 1) r') as [x' Hx'].
  { unfold ints. rewrite Hr', Ha'. unfold int_value. pow2. lia. }
  { unfold fuel_for. rewrite Hr', Ha'. lia. }
  exists r', x'. split; [exact Hr'|]. split; [exact Ha'|].
  split; [exact Hx'|].
  rewrite Hrun, Hx'. unfold last_round, retry_round. simpl.
  rewrite <- app_assoc. reflexivity.
Qed.

(** C5 at the first backend of a request. *)
Lemma C5_retries_before_the_mark_witness :
  (forall k, refused (addr "b:80") k = false) /\
  0 <= GetRetryFromContext fresh_request <= 3 /\
  1 <= GetAttemptsFromContext fresh_request <= 3 /\
  (7 <= 7)%nat /\
  exists x',
    option_map trace
      (ServeHTTP refused 15 (addr "b:80") (pool_ab 1) 0 fresh_request) =
    Some (retry_round (addr "b:80") ++ retry_round (addr "b:80")
          ++ retry_round (addr "b:80") ++ last_round (addr "b:80") 1
          ++ trace x').
Proof.
  assert (Hr : 0 <= GetRetryFromContext fresh_request <= 3)
    by (change (GetRetryFromContext fresh_request) with 0; lia).
  assert (Ha : 1 <= GetAttemptsFromContext fresh_request <= 3)
    by (change (GetAttemptsFromContext fresh_request) with 1; lia).
  split; [reflexivity|]. split; [exact Hr|]. split; [exact Ha|].
  split; [apply Nat.le_refl|].
  destruct (proj2 (C5_retries_before_the_mark refused (addr "b:80") (pool_ab 1)
                     0 fresh_request 7 (fun _ => eq_refl) Hr Ha (Nat.le_refl _)))
    as (r' & x' & _ & _ & _ & Hrun).
  exists x'.
  change (ServeHTTP refused 15 (addr "b:80") (pool_ab 1) 0 fresh_request)
    with (ServeHTTP refused
            (2 * Z.to_nat (3 - GetRetryFromContext fresh_request) + 2 + 7)
            (addr "b:80") (pool_ab 1) 0 fresh_request).
  rewrite Hrun. reflexivity.
Defined.

(** C5 (counterexample): two alive backends whose forwarders always fail.
    The backend selected first is tried four times (three retries); the
    retries counter then stays at 3 in the request context, and the
    backend selected second is marked dead after its first failed attempt,
    with no retry and no delay. *)
Lemma C5_second_backend_is_not_retried :
  option_map trace (lb refused 19 (pool_ab 0) 0 fresh_request) =
  Some ([EvPeer (Some 1%nat)]
        ++ retry_round (addr "b:80") ++ retry_round (addr "b:80")
        ++ retry_round (addr "b:80") ++ last_round (addr "b:80") 1
        ++ [EvPeer (Some 0%nat)]
        ++ last_round (addr "a:80") 2
        ++ [EvPeer None; EvWrite Service_not_available])
  /\ option_map (fun x => round_trips (addr "a:80") (trace x))
       (lb refused 19 (pool_ab 0) 0 fresh_request) = Some 1%nat.
Proof. split; vm_compute; reflexivity. Qed.

(** * Further properties of the pool *)

(** ** Selection, for every cursor *)

Lemma GetNextPeer_loop_cursor (s : ServerPool) (next : Z) (steps : nat) :
  uint64_value (current s) ->
  forall i, uint64_value (current (pool_of (GetNextPeer_loop s next i steps))).
Proof.
  intros Hcur. induction steps as [|steps IH]; intros i; simpl; [exact Hcur|].
  destruct (len s =? 0); [exact Hcur|].
  destruct (index s (Z.rem i (len s))) as [b|]; [|exact Hcur].
  destruct (IsAlive b); [|apply IH].
  destruct (negb (i =? next)); simpl; [apply to_uint64_range|exact Hcur].
Qed.

(** X1: whatever the cursor, a [GetNextPeer] call leaves the backend
    list as it is, the peer it hands out sits at the returned position
    and was read alive, and the cursor remains a [uint64] value; this
    holds for calls that return none or panic as well. *)
Theorem GetNextPeer_keeps_the_pool (s : ServerPool) :
  backends (pool_of (GetNextPeer s)) = backends s
  /\ (forall i b s', GetNextPeer s = Ok (Some (i, b)) s' ->
        nth_error (backends s) i = Some b /\ Alive b = true)
  /\ (uint64_value (current s) ->
      uint64_value (current (pool_of (GetNextPeer s)))).
Proof.
  split; [apply GetNextPeer_backends|]. split.
  - intros i b s'. apply GetNextPeer_sound.
  - intros Hcur. unfold GetNextPeer, NextIndex.
    destruct (len s =? 0); [exact Hcur|].
    cbv zeta. apply GetNextPeer_loop_cursor. simpl. apply to_uint64_range.
Qed.

(** X1 at the two-backend pool with the cursor at the largest [int],
    where the second call panics. *)
Lemma GetNextPeer_keeps_the_pool_witness :
  uint64_value (current (pool_ab (max_int + 1))) /\
  uint64_value (current (pool_of (GetNextPeer (pool_ab (max_int + 1))))).
Proof.
  assert (H : uint64_value (current (pool_ab (max_int + 1))))
    by (split; [apply Z.leb_le|apply Z.ltb_lt]; reflexivity).
  split; [exact H|].
  exact (proj2 (proj2 (GetNextPeer_keeps_the_pool (pool_ab (max_int + 1)))) H).
Defined.

(** X2: while the cursor is in range, the peer that [GetNextPeer] hands
    out is the first backend read alive in cyclic order from the counter
    that [NextIndex] returned: every position scanned before it is dead.
    After the call the cursor, reduced modulo the pool size, is the
    position handed out. *)
Theorem GetNextPeer_first_alive (s : ServerPool) (i : nat) (b : Backend)
  (s' : ServerPool) :
  in_range s ->
  GetNextPeer s = Ok (Some (i, b)) s' ->
  let next := current s + 1 mod len s in
  exists k,
    (k < List.length (backends s))%nat /\
    Z.of_nat i = (next + Z.of_nat k) mod len s /\
    (forall k', (k' < k)%nat -> dead_at s ((next + Z.of_nat k') mod len s)) /\
    current s' mod len s = Z.of_nat i.
Proof.
  intros H Hget next. rewrite (GetNextPeer_in_range s H) in Hget.
  destruct (in_range_store s H) as (Hlen & Hnext & Hmax).
  fold next in Hget, Hlen, Hnext, Hmax.
  destruct (GetNextPeer_loop_scan (store s next) next Hlen
              (List.length (backends s)) next Hnext Hmax)
    as [[Hnone _]|(k & b' & Hk & Hb & Ha & Hdead & Hsome)].
  - congruence.
  - rewrite Hsome in Hget. inversion Hget as [[Hi Hbb Hs']].
    replace (len (store s next)) with (len s) in * by reflexivity.
    assert (Hidx : 0 <= (next + Z.of_nat k) mod len s < len s)
      by (apply Z.mod_pos_bound; exact Hlen).
    exists k. split; [exact Hk|]. split; [rewrite Z2Nat.id; lia|].
    split; [exact Hdead|].
    rewrite Z2Nat.id by lia.
    destruct (next + Z.of_nat k =? next) eqn:E.
    + apply Z.eqb_eq in E. simpl. rewrite E. reflexivity.
    + simpl. apply Z.mod_small. exact Hidx.
Qed.

Lemma in_range_pool_abc : in_range (pool_abc 4).
Proof. unfold in_range. cbn. pow2. lia. Qed.

(** X2 at the three-backend pool whose middle backend is the only one
    alive, with the cursor at 4: the scan starts at position 2. *)
Lemma GetNextPeer_first_alive_witness :
  in_range (pool_abc 4) /\
  GetNextPeer (pool_abc 4) = Ok (Some (1%nat, up "b:80")) (pool_abc 1) /\
  current (pool_abc 1) mod len (pool_abc 4) = 1.
Proof.
  assert (Hget : GetNextPeer (pool_abc 4)
                 = Ok (Some (1%nat, up "b:80")) (pool_abc 1)) by reflexivity.
  split; [exact in_range_pool_abc|]. split; [exact Hget|].
  destruct (GetNextPeer_first_alive (pool_abc 4) 1 (up "b:80") (pool_abc 1)
              in_range_pool_abc Hget) as (k & _ & _ & _ & Hcur).
  exact Hcur.
Defined.

(** ** A pool of one backend *)

Lemma GetNextPeer_single (b : Backend) :
  GetNextPeer {| backends := [b]; current := 0 |} =
    if Alive b
    then Ok (Some (0%nat, b)) {| backends := [b]; current := 0 |}
    else Ok None {| backends := [b]; current := 0 |}.
Proof.
  destruct b as [u [|]]; reflexivity.
Qed.

Lemma serving_single (s0 s : ServerPool) :
  serving s0 s ->
  (exists b0, s0 = {| backends := [b0]; current := 0 |}) ->
  exists b, s = {| backends := [b]; current := 0 |}.
Proof.
  intros Hserving H0.
  induction Hserving as [|s H IH|s u H IH|s dial H IH].
  - exact H0.
  - destruct IH as [b ->]. rewrite GetNextPeer_single.
    exists b. destruct (Alive b); reflexivity.
  - destruct IH as [b ->]. unfold MarkBackendStatus. simpl.
    destruct (String.eqb (url.String (URL b)) (url.String u)); eauto.
  - destruct IH as [b ->]. unfold HealthCheck. simpl.
    unfold isBackendAlive. destruct (dial (url.Host (URL b))); simpl; eauto.
Qed.

(** X3: when one backend is configured, the increment of [NextIndex] is
    [1 % 1 = 0]: in every pool the balancer passes through, the cursor is
    still 0, and [GetNextPeer] returns the backend when it is alive and
    none otherwise, leaving the pool as it is; it never panics. *)
Theorem single_backend_cursor_stays_at_zero
  (Parse : string -> option url.URL) (serverList : string) (s0 s : ServerPool) :
  main Parse serverList = Some s0 ->
  List.length (backends s0) = 1%nat ->
  serving s0 s ->
  exists b,
    s = {| backends := [b]; current := 0 |} /\
    GetNextPeer s = if Alive b then Ok (Some (0%nat, b)) s else Ok None s.
Proof.
  intros Hmain Hone Hserving.
  assert (H0 : exists b0, s0 = {| backends := [b0]; current := 0 |}).
  { unfold main in Hmain.
    destruct (String.length serverList =? 0)%nat; [discriminate|].
    assert (Hcur : forall toks a r,
               fold_left (configure Parse) toks (Some a) = Some r ->
               current r = current a).
    { induction toks as [|tok toks IH]; intros a r Hr; simpl in Hr.
      - inversion Hr. reflexivity.
      - destruct (Parse tok); [|rewrite configure_None in Hr; discriminate].
        apply IH in Hr. exact Hr. }
    apply Hcur in Hmain. destruct s0 as [bs c]. simpl in *. subst c.
    destruct bs as [|b0 [|b1 bs]]; try discriminate. eauto. }
  destruct (serving_single s0 s Hserving H0) as [b ->].
  exists b. split; [reflexivity|]. apply GetNextPeer_single.
Qed.

(** X3 at the pool configured from [a:80], after a request, a mark and
    another request. *)
Lemma single_backend_cursor_stays_at_zero_witness :
  main parse_any "a:80" = Some (pool_a 0) /\
  List.length (backends (pool_a 0)) = 1%nat /\
  serving (pool_a 0)
    (pool_of (GetNextPeer
       (MarkBackendStatus (pool_of (GetNextPeer (pool_a 0))) (addr "a:80") false))) /\
  current
    (pool_of (GetNextPeer
       (MarkBackendStatus (pool_of (GetNextPeer (pool_a 0))) (addr "a:80") false)))
  = 0.
Proof.
  assert (Hs : serving (pool_a 0)
    (pool_of (GetNextPeer
       (MarkBackendStatus (pool_of (GetNextPeer (pool_a 0))) (addr "a:80") false))))
    by (apply serving_GetNextPeer, serving_MarkBackendStatus,
          serving_GetNextPeer, serving_start).
  split; [reflexivity|]. split; [reflexivity|]. split; [exact Hs|].
  destruct (single_backend_cursor_stays_at_zero parse_any "a:80" (pool_a 0) _
              eq_refl eq_refl Hs) as (b & Hb & _).
  rewrite Hb. reflexivity.
Defined.

(** ** MarkBackendStatus: how calls compose *)

Lemma MarkBackendStatus_range_twice (bs : list Backend) (wanted : string)
  (a b : bool) :
  MarkBackendStatus_range (MarkBackendStatus_range bs wanted a) wanted b =
  MarkBackendStatus_range bs wanted b.
Proof.
  induction bs as [|b0 rest IH]; simpl; [reflexivity|].
  destruct (String.eqb (url.String (URL b0)) wanted) eqn:E; simpl; rewrite E.
  - reflexivity.
  - f_equal. exact IH.
Qed.

(** X4: of two [MarkBackendStatus] calls for the same address the last
    one decides: the pool is the one the last call alone would give.  In
    particular a call repeated changes nothing more. *)
Theorem MarkBackendStatus_last_call_wins (s : ServerPool) (u v : url.URL)
  (a b : bool) :
  url.String u = url.String v ->
  MarkBackendStatus (MarkBackendStatus s u a) v b = MarkBackendStatus s v b.
Proof.
  intros E. unfold MarkBackendStatus. simpl. rewrite E.
  rewrite MarkBackendStatus_range_twice. reflexivity.
Qed.

(** X4 at the two-backend pool: dead, then alive again. *)
Lemma MarkBackendStatus_last_call_wins_witness :
  url.String (addr "b:80") = url.String (addr "b:80") /\
  MarkBackendStatus (MarkBackendStatus (pool_ab 3) (addr "b:80") false)
    (addr "b:80") true = pool_ab 3.
Proof.
  split; [reflexivity|].
  rewrite (MarkBackendStatus_last_call_wins (pool_ab 3) (addr "b:80")
             (addr "b:80") false true eq_refl).
  reflexivity.
Defined.

Lemma MarkBackendStatus_range_swap (bs : list Backend) (w1 w2 : string)
  (a b : bool) :
  w1 <> w2 ->
  MarkBackendStatus_range (MarkBackendStatus_range bs w1 a) w2 b =
  MarkBackendStatus_range (MarkBackendStatus_range bs w2 b) w1 a.
Proof.
  intros Hne. induction bs as [|b0 rest IH]; simpl; [reflexivity|].
  destruct (String.eqb_spec (url.String (URL b0)) w1) as [E1|N1];
    destruct (String.eqb_spec (url.String (URL b0)) w2) as [E2|N2].
  - congruence.
  - simpl. destruct (String.eqb_spec (url.String (URL b0)) w2); [congruence|].
    destruct (String.eqb_spec (url.String (URL b0)) w1); [|congruence].
    reflexivity.
  - simpl. destruct (String.eqb_spec (url.String (URL b0)) w2); [|congruence].
    destruct (String.eqb_spec (url.String (URL b0)) w1); [congruence|].
    reflexivity.
  - simpl. destruct (String.eqb_spec (url.String (URL b0)) w2); [congruence|].
    destruct (String.eqb_spec (url.String (URL b0)) w1); [congruence|].
    f_equal. exact IH.
Qed.

(** X5: [MarkBackendStatus] calls for different addresses do not
    interfere: in either order they give the same pool. *)
Theorem MarkBackendStatus_calls_commute (s : ServerPool) (u v : url.URL)
  (a b : bool) :
  url.String u <> url.String v ->
  MarkBackendStatus (MarkBackendStatus s u a) v b =
  MarkBackendStatus (MarkBackendStatus s v b) u a.
Proof.
  intros Hne. unfold MarkBackendStatus. simpl.
  rewrite (MarkBackendStatus_range_swap _ _ _ a b Hne). reflexivity.
Qed.

(** X5 at the two-backend pool. *)
Lemma MarkBackendStatus_calls_commute_witness :
  url.String (addr "a:80") <> url.String (addr "b:80") /\
  MarkBackendStatus (MarkBackendStatus (pool_ab 0) (addr "a:80") false)
    (addr "b:80") false =
  MarkBackendStatus (MarkBackendStatus (pool_ab 0) (addr "b:80") false)
    (addr "a:80") false.
Proof.
  assert (H : url.String (addr "a:80") <> url.String (addr "b:80"))
    by discriminate.
  split; [exact H|].
  exact (MarkBackendStatus_calls_commute (pool_ab 0) (addr "a:80") (addr "b:80")
           false false H).
Defined.

(** ** HealthCheck and the other operations *)

Lemma HealthCheck_range_by_URL (dial : string -> bool) (bs1 : list Backend) :
  forall bs2,
    map URL bs1 = map URL bs2 ->
    HealthCheck_range dial bs1 = HealthCheck_range dial bs2.
Proof.
  induction bs1 as [|b1 rest1 IH]; intros [|b2 rest2] H; try discriminate.
  - reflexivity.
  - simpl in H. inversion H as [[Hu Hrest]]. simpl.
    rewrite (IH rest2 Hrest). unfold SetAlive. rewrite Hu. reflexivity.
Qed.

(** X6: a health check does not read the liveness flags: run after a
    [MarkBackendStatus] call it writes the records and leaves the pool
    that it would without the call, so whatever the dispatcher marked is
    overwritten by the outcome of the probes. *)
Theorem HealthCheck_overwrites_marks (dial : string -> bool) (s : ServerPool)
  (u : url.URL) (alive : bool) :
  HealthCheck dial (MarkBackendStatus s u alive) = HealthCheck dial s.
Proof.
  unfold HealthCheck, MarkBackendStatus. simpl.
  rewrite (HealthCheck_range_by_URL dial _ (backends s)); [reflexivity|].
  apply MarkBackendStatus_range_URLs.
Qed.

Lemma in_range_HealthCheck (dial : string -> bool) (s : ServerPool) :
  in_range s -> in_range (snd (HealthCheck dial s)).
Proof.
  unfold in_range. rewrite HealthCheck_len.
  replace (current (snd (HealthCheck dial s))) with (current s);
    [exact (fun H => H)|].
  unfold HealthCheck. destruct (HealthCheck_range dial (backends s)). reflexivity.
Qed.

Lemma HealthCheck_backends (dial : string -> bool) (s : ServerPool) :
  backends (snd (HealthCheck dial s)) = map (probed dial) (backends s).
Proof.
  unfold HealthCheck.
  pose proof (HealthCheck_range_backends dial (backends s)) as H.
  destruct (HealthCheck_range dial (backends s)). exact H.
Qed.

(** X7: selection after a health check, while the cursor is in range:
    [GetNextPeer] returns none exactly when the probe reached no backend,
    and a peer it hands out is a backend of the pool, at the same
    position, whose host the probe reached. *)
Theorem GetNextPeer_after_HealthCheck (dial : string -> bool) (s : ServerPool) :
  in_range s ->
  let checked := snd (HealthCheck dial s) in
  ((exists s', GetNextPeer checked = Ok None s') <->
   forall b, In b (backends s) -> dial (url.Host (URL b)) = false)
  /\ forall i b s',
       GetNextPeer checked = Ok (Some (i, b)) s' ->
       dial (url.Host (URL b)) = true /\
       exists b0, nth_error (backends s) i = Some b0 /\ URL b0 = URL b.
Proof.
  intros H checked. split.
  - rewrite (GetNextPeer_none_iff_all_dead checked (in_range_HealthCheck dial s H)).
    unfold all_dead, checked. rewrite HealthCheck_backends. split.
    + intros Hdead b Hin. apply (Hdead (probed dial b)).
      apply in_map. exact Hin.
    + intros Hdown b Hin. apply in_map_iff in Hin.
      destruct Hin as (b0 & <- & Hin). simpl. apply Hdown. exact Hin.
  - intros i b s' Hget. apply GetNextPeer_sound in Hget.
    destruct Hget as [Hnth Ha]. unfold checked in Hnth.
    rewrite HealthCheck_backends, nth_error_map in Hnth.
    destruct (nth_error (backends s) i) as [b0|]; [|discriminate].
    simpl in Hnth. inversion Hnth; subst b. simpl in *.
    split; [exact Ha|]. exists b0. split; reflexivity.
Qed.

Lemma in_range_pool_ab : in_range (pool_ab 0).
Proof. unfold in_range. cbn. pow2. lia. Qed.

(** X7 at the two-backend pool on a network where no host answers. *)
Lemma GetNextPeer_after_HealthCheck_witness :
  in_range (pool_ab 0) /\
  exists s', GetNextPeer (snd (HealthCheck unreachable (pool_ab 0))) = Ok None s'.
Proof.
  split; [exact in_range_pool_ab|].
  apply (proj1 (GetNextPeer_after_HealthCheck unreachable (pool_ab 0)
                  in_range_pool_ab)).
  intros b _. reflexivity.
Defined.

(** ** What stays fixed while serving *)

Lemma configure_cursor (Parse : string -> option url.URL) (toks : list string) :
  forall a r,
    fold_left (configure Parse) toks (Some a) = Some r -> current r = current a.
Proof.
  induction toks as [|tok toks IH]; intros a r Hr; simpl in Hr.
  - inversion Hr. reflexivity.
  - destruct (Parse tok); [|rewrite configure_None in Hr; discriminate].
    apply IH in Hr. exact Hr.
Qed.

(** X8: from the pool that [main] configured on, no call the balancer
    makes on the pool adds, removes, reorders or readdresses a backend,
    and the cursor remains a [uint64] value: only liveness flags and the
    cursor change. *)
Theorem serving_keeps_the_addresses
  (Parse : string -> option url.URL) (serverList : string) (s0 s : ServerPool) :
  main Parse serverList = Some s0 ->
  serving s0 s ->
  map URL (backends s) = map URL (backends s0) /\ uint64_value (current s).
Proof.
  intros Hmain Hserving.
  assert (H0 : uint64_value (current s0)).
  { unfold main in Hmain.
    destruct (String.length serverList =? 0)%nat; [discriminate|].
    apply configure_cursor in Hmain. rewrite Hmain.
    split; [apply Z.leb_le|apply Z.ltb_lt]; reflexivity. }
  induction Hserving as [|s H [IHu IHc]|s u H [IHu IHc]|s dial H [IHu IHc]].
  - split; [reflexivity|exact H0].
  - destruct (GetNextPeer_keeps_the_pool s) as (Hbs & _ & Hcur).
    rewrite Hbs. split; [exact IHu|apply Hcur; exact IHc].
  - split; [|exact IHc]. rewrite <- IHu. apply MarkBackendStatus_range_URLs.
  - rewrite HealthCheck_backends. split.
    + rewrite map_map. simpl. exact IHu.
    + replace (current (snd (HealthCheck dial s))) with (current s);
        [exact IHc|].
      unfold HealthCheck. destruct (HealthCheck_range dial (backends s)).
      reflexivity.
Qed.

(** X8 at the pool configured from [a:80,b:80], after a health check on
    a dead network and a request. *)
Lemma serving_keeps_the_addresses_witness :
  main parse_any "a:80,b:80" = Some (pool_ab 0) /\
  serving (pool_ab 0)
    (pool_of (GetNextPeer (snd (HealthCheck unreachable (pool_ab 0))))) /\
  map URL (backends
    (pool_of (GetNextPeer (snd (HealthCheck unreachable (pool_ab 0))))))
  = [addr "a:80"; addr "b:80"].
Proof.
  assert (Hs : serving (pool_ab 0)
    (pool_of (GetNextPeer (snd (HealthCheck unreachable (pool_ab 0))))))
    by (apply serving_GetNextPeer, serving_HealthCheck, serving_start).
  split; [reflexivity|]. split; [exact Hs|].
  exact (proj1 (serving_keeps_the_addresses parse_any "a:80,b:80" (pool_ab 0) _
                  eq_refl Hs)).
Defined.

(** ** Start-up *)

Lemma Split_comma_length (s : string) :
  List.length (Split_comma s) = S (commas s).
Proof.
  induction s as [|c s IH]; simpl; [reflexivity|].
  destruct (Ascii.eqb c ","); simpl; [rewrite IH; reflexivity|].
  destruct (Split_comma s) as [|piece pieces]; simpl in *; [discriminate|exact IH].
Qed.

Lemma configure_backends (Parse : string -> option url.URL) (toks : list string) :
  forall a r,
    fold_left (configure Parse) toks (Some a) = Some r ->
    map (fun b => Some (URL b)) (backends r) =
      map (fun b => Some (URL b)) (backends a) ++ map Parse toks
    /\ ((forall b, In b (backends a) -> Alive b = true) ->
        forall b, In b (backends r) -> Alive b = true).
Proof.
  induction toks as [|tok toks IH]; intros a r Hr; simpl in Hr.
  - inversion Hr; subst. simpl. rewrite app_nil_r. split; [reflexivity|auto].
  - destruct (Parse tok) as [u|] eqn:Hp;
      [|rewrite configure_None in Hr; discriminate].
    apply IH in Hr. destruct Hr as [Hurls Halive]. split.
    + rewrite Hurls. unfold AddBackend. simpl.
      rewrite map_app, <- app_assoc. simpl. rewrite Hp. reflexivity.
    + intros Ha. apply Halive. unfold AddBackend. simpl.
      intros b Hin. apply in_app_or in Hin.
      destruct Hin as [Hin|[<-|[]]]; [apply Ha; exact Hin|reflexivity].
Qed.

(** X9: when [main] gets past the configuration, the pool holds one
    backend for each piece of the list between commas, in the order of
    the list and with the address parsed from that piece (one more
    backend than the list has commas), every backend is alive and the
    cursor is 0. *)
Theorem main_configures_the_list (Parse : string -> option url.URL)
  (serverList : string) (s : ServerPool) :
  main Parse serverList = Some s ->
  map (fun b => Some (URL b)) (backends s) = map Parse (Split_comma serverList)
  /\ List.length (backends s) = S (commas serverList)
  /\ all_alive s
  /\ current s = 0.
Proof.
  unfold main. destruct (String.length serverList =? 0)%nat; [discriminate|].
  intros H.
  destruct (configure_backends Parse _ _ _ H) as [Hurls Halive].
  simpl in Hurls. split; [exact Hurls|]. split; [|split].
  - rewrite <- Split_comma_length, <- (length_map Parse), <- Hurls, length_map.
    reflexivity.
  - exact (Halive (fun b (Hin : In b []) => match Hin with end)).
  - apply configure_cursor in H. exact H.
Qed.

(** X9 at the list [a:80,b:80,c:80]. *)
Lemma main_configures_the_list_witness :
  main parse_any "a:80,b:80,c:80" = Some (pool_abc_up 0) /\
  List.length (backends (pool_abc_up 0)) = 3%nat.
Proof.
  split; [reflexivity|].
  exact (proj1 (proj2 (main_configures_the_list parse_any "a:80,b:80,c:80"
                         (pool_abc_up 0) eq_refl))).
Defined.




(** * Further properties of the dispatcher *)

Lemma forwards_app (e1 e2 : list event) :
  forwards (e1 ++ e2) = (forwards e1 + forwards e2)%nat.
Proof.
  induction e1 as [|e e1 IH]; simpl; [reflexivity|].
  destruct e; simpl; rewrite IH; reflexivity.
Qed.

Lemma sleep_ms_app (e1 e2 : list event) :
  sleep_ms (e1 ++ e2) = sleep_ms e1 + sleep_ms e2.
Proof.
  induction e1 as [|e e1 IH]; simpl; [reflexivity|].
  destruct e; simpl; rewrite IH; lia.
Qed.

Lemma marks_app (e1 e2 : list event) : marks (e1 ++ e2) = marks e1 ++ marks e2.
Proof.
  induction e1 as [|e e1 IH]; simpl; [reflexivity|].
  destruct e; simpl; rewrite IH; reflexivity.
Qed.

(** ** Requests that meet no live backend *)

(** X11: on a pool without backends, [lb] entered below the attempts
    ceiling panics with a division by zero in peer selection: it writes
    no response and leaves the pool as it is. *)
Theorem lb_panics_on_the_empty_pool (transport : url.URL -> nat -> bool)
  (fuel : nat) (s : ServerPool) (t : nat) (r : Request) :
  len s = 0 ->
  GetAttemptsFromContext r <= 3 ->
  lb transport (S fuel) s t r =
    Some {| trace := []; pool := s; ended := Crashed DivideByZero |}.
Proof.
  intros Hlen Ha. rewrite lb_S.
  replace (GetAttemptsFromContext r >? 3) with false
    by (symmetry; rewrite Z.gtb_ltb; apply Z.ltb_ge; exact Ha).
  unfold GetNextPeer, NextIndex. rewrite Hlen. reflexivity.
Qed.

(** X11 at the zero value of the pool and a request without counters. *)
Lemma lb_panics_on_the_empty_pool_witness :
  len empty_pool = 0 /\
  GetAttemptsFromContext fresh_request <= 3 /\
  option_map ended (lb refused 1 empty_pool 0 fresh_request)
  = Some (Crashed DivideByZero).
Proof.
  assert (Ha : GetAttemptsFromContext fresh_request <= 3)
    by (apply Z.leb_le; reflexivity).
  split; [reflexivity|]. split; [exact Ha|].
  rewrite (lb_panics_on_the_empty_pool refused 0 empty_pool 0 fresh_request
             eq_refl Ha).
  reflexivity.
Defined.

(** X12: on a pool whose backends are all dead and whose cursor is in
    range, [lb] entered below the attempts ceiling answers 503 at once:
    no forwarding attempt is made and no backend is marked; the call only
    advances the cursor by [1 mod len]. *)
Theorem lb_all_dead_is_503 (transport : url.URL -> nat -> bool)
  (fuel : nat) (s : ServerPool) (t : nat) (r : Request) :
  in_range s -> all_dead s ->
  GetAttemptsFromContext r <= 3 ->
  lb transport (S fuel) s t r =
    Some {| trace := [EvPeer None;
                      EvWrite (http_Error "Service not available" 503)];
            pool := {| backends := backends s;
                       current := current s + 1 mod len s |};
            ended := Replied (http_Error "Service not available" 503) |}.
Proof.
  intros Hin Hdead Ha.
  destruct (proj2 (GetNextPeer_none_iff_all_dead s Hin) Hdead) as [s' Hnone].
  rewrite (lb_no_live_peer transport fuel s s' t r Ha Hnone).
  assert (Hs' : s' = store s (current s + 1 mod len s)).
  { rewrite (GetNextPeer_in_range s Hin) in Hnone.
    destruct (in_range_store s Hin) as (Hlen & Hnext & Hmax).
    destruct (GetNextPeer_loop_scan (store s (current s + 1 mod len s))
                (current s + 1 mod len s) Hlen
                (List.length (backends s)) (current s + 1 mod len s) Hnext Hmax)
      as [[Hn _]|(k & b & _ & _ & _ & _ & Hsome)]; congruence. }
  rewrite Hs'. reflexivity.
Qed.

Lemma in_range_dead_pool :
  in_range (snd (HealthCheck unreachable (pool_ab 0))).
Proof. apply in_range_HealthCheck, in_range_pool_ab. Qed.

(** X12 at the two-backend pool after a health check on a dead
    network. *)
Lemma lb_all_dead_is_503_witness :
  in_range (snd (HealthCheck unreachable (pool_ab 0))) /\
  all_dead (snd (HealthCheck unreachable (pool_ab 0))) /\
  GetAttemptsFromContext fresh_request <= 3 /\
  option_map trace
    (lb refused 1 (snd (HealthCheck unreachable (pool_ab 0))) 0 fresh_request)
  = Some [EvPeer None; EvWrite (http_Error "Service not available" 503)].
Proof.
  assert (Hd : all_dead (snd (HealthCheck unreachable (pool_ab 0))))
    by (intros b [<-|[<-|[]]]; reflexivity).
  assert (Ha : GetAttemptsFromContext fresh_request <= 3)
    by (apply Z.leb_le; reflexivity).
  split; [exact in_range_dead_pool|]. split; [exact Hd|]. split; [exact Ha|].
  rewrite (lb_all_dead_is_503 refused 0 _ 0 fresh_request
             in_range_dead_pool Hd Ha).
  reflexivity.
Defined.

(** ** Transient failures *)

Section Recovery.

Variable transport : url.URL -> nat -> bool.

Lemma ServeHTTP_recovers (u : url.URL) (k : nat) :
  forall (fuel : nat) (s : ServerPool) (t : nat) (r : Request),
    (forall j, (j < k)%nat -> transport u (t + j) = false) ->
    transport u (t + k) = true ->
    int_value (GetRetryFromContext r) ->
    GetRetryFromContext r + Z.of_nat k <= 3 ->
    ServeHTTP transport (2 * k + 1 + fuel) u s t r =
      Some {| trace := List.concat (repeat (retry_round u) k)
                       ++ [EvRoundTrip u true];
              pool := s; ended := Served u |}.
Proof.
  induction k as [|k IH]; intros fuel s t r Hfail Hok Hrange Hr.
  - change (2 * 0 + 1 + fuel)%nat with (S fuel).
    rewrite ServeHTTP_S. rewrite Nat.add_0_r in Hok. rewrite Hok. reflexivity.
  - replace (2 * S k + 1 + fuel)%nat with (S (S (2 * k + 1 + fuel))) by lia.
    rewrite ServeHTTP_S.
    rewrite <- (Nat.add_0_r t) at 1. rewrite (Hfail O) by lia.
    rewrite ErrorHandler_S.
    replace (GetRetryFromContext r <? 3) with true
      by (symmetry; apply Z.ltb_lt; lia).
    assert (E : to_int (GetRetryFromContext r + 1) = GetRetryFromContext r + 1)
      by (apply to_int_id; unfold int_value in *; pow2; lia).
    rewrite E.
    rewrite (IH fuel s (S t)).
    + reflexivity.
    + intros j Hj. replace (S t + j)%nat with (t + S j)%nat by lia.
      apply Hfail. lia.
    + replace (S t + k)%nat with (t + S k)%nat by lia. exact Hok.
    + rewrite GetRetry_WithValue_Retry. unfold int_value in *. pow2. lia.
    + rewrite GetRetry_WithValue_Retry. lia.
Qed.

(** X13: a request whose retries counter leaves room for [k] retries
    (k <= 3 for a request without counters) and whose selected backend
    fails [k] times and then accepts the request is served by that same
    backend: the run is the selection, [k] rounds of failed attempt, log
    record and 10 ms delay, and the successful attempt; no backend is
    marked dead and, but for the cursor move of the selection, the pool
    is untouched. *)
Theorem lb_recovers_on_the_same_backend (fuel : nat) (s s' : ServerPool)
  (t : nat) (r : Request) (i : nat) (b : Backend) (k : nat) :
  GetNextPeer s = Ok (Some (i, b)) s' ->
  GetAttemptsFromContext r <= 3 ->
  0 <= GetRetryFromContext r ->
  GetRetryFromContext r + Z.of_nat k <= 3 ->
  (forall j, (j < k)%nat -> transport (URL b) (t + j) = false) ->
  transport (URL b) (t + k) = true ->
  lb transport (2 * k + 2 + fuel) s t r =
    Some {| trace := EvPeer (Some i)
                     :: List.concat
                          (repeat [EvRoundTrip (URL b) false;
                                   EvLog (LogTransportError (url.Host (URL b)));
                                   EvSleep 10] k)
                     ++ [EvRoundTrip (URL b) true];
            pool := s'; ended := Served (URL b) |}.
Proof.
  intros Hget Ha Hr0 Hr Hfail Hok.
  replace (2 * k + 2 + fuel)%nat with (S (2 * k + 1 + fuel)) by lia.
  rewrite lb_S, Hget.
  replace (GetAttemptsFromContext r >? 3) with false
    by (symmetry; rewrite Z.gtb_ltb; apply Z.ltb_ge; exact Ha).
  rewrite (ServeHTTP_recovers (URL b) k fuel s' t r Hfail Hok);
    [reflexivity| |exact Hr].
  unfold int_value. pow2. lia.
Qed.

End Recovery.

(** X13 at the two-backend pool when the first two attempts of the
    request fail. *)
Lemma lb_recovers_on_the_same_backend_witness :
  GetNextPeer (pool_ab 0) = Ok (Some (1%nat, up "b:80")) (pool_ab 1) /\
  GetAttemptsFromContext fresh_request <= 3 /\
  0 <= GetRetryFromContext fresh_request /\
  GetRetryFromContext fresh_request + Z.of_nat 2 <= 3 /\
  (forall j, (j < 2)%nat -> fails_first 2 (URL (up "b:80")) (0 + j) = false) /\
  fails_first 2 (URL (up "b:80")) (0 + 2) = true /\
  option_map ended (lb (fails_first 2) 6 (pool_ab 0) 0 fresh_request)
  = Some (Served (addr "b:80")).
Proof.
  assert (Ha : GetAttemptsFromContext fresh_request <= 3)
    by (apply Z.leb_le; reflexivity).
  assert (Hr0 : 0 <= GetRetryFromContext fresh_request)
    by (apply Z.leb_le; reflexivity).
  assert (Hr : GetRetryFromContext fresh_request + Z.of_nat 2 <= 3)
    by (apply Z.leb_le; reflexivity).
  assert (Hfail : forall j, (j < 2)%nat ->
                            fails_first 2 (URL (up "b:80")) (0 + j) = false).
  { intros j Hj. unfold fails_first. apply Nat.leb_gt. exact Hj. }
  split; [reflexivity|]. split; [exact Ha|]. split; [exact Hr0|].
  split; [exact Hr|]. split; [exact Hfail|]. split; [reflexivity|].
  change (lb (fails_first 2) 6 (pool_ab 0) 0 fresh_request)
    with (lb (fails_first 2) (2 * 2 + 2 + 0) (pool_ab 0) 0 fresh_request).
  rewrite (lb_recovers_on_the_same_backend (fails_first 2) 0 (pool_ab 0)
             (pool_ab 1) 0 fresh_request 1 (up "b:80") 2
             eq_refl Ha Hr0 Hr Hfail eq_refl).
  reflexivity.
Defined.

(** ** What one request can cost *)

Section Cost.

Variable transport : url.URL -> nat -> bool.

Lemma dispatch_cost (fuel : nat) :
  (forall s t r x,
      ints r -> lb transport fuel s t r = Some x ->
      (forwards (trace x) <= budget r)%nat /\
      sleep_ms (trace x) <= 10 * Z.of_nat (Z.to_nat (3 - GetRetryFromContext r)) /\
      (List.length (marks (trace x))
       <= Z.to_nat (4 - GetAttemptsFromContext r))%nat)
  /\ (forall u s t r x,
         ints r -> GetAttemptsFromContext r <= 3 ->
         ServeHTTP transport fuel u s t r = Some x ->
         (forwards (trace x) <= budget r)%nat /\
         sleep_ms (trace x) <= 10 * Z.of_nat (Z.to_nat (3 - GetRetryFromContext r)) /\
         (List.length (marks (trace x))
          <= Z.to_nat (4 - GetAttemptsFromContext r))%nat)
  /\ (forall u s t r x,
         ints r -> GetAttemptsFromContext r <= 3 ->
         ErrorHandler transport fuel u s t r = Some x ->
         (S (forwards (trace x)) <= budget r)%nat /\
         sleep_ms (trace x) <= 10 * Z.of_nat (Z.to_nat (3 - GetRetryFromContext r)) /\
         (List.length (marks (trace x))
          <= Z.to_nat (4 - GetAttemptsFromContext r))%nat).
Proof.
  induction fuel as [|fuel (IHlb & IHserve & IHerr)].
  - repeat split; intros; discriminate.
  - split; [|split].
    + intros s t r x Hvals. rewrite lb_S.
      destruct (GetAttemptsFromContext r >? 3) eqn:Ha.
      { intros H. inversion H; subst. cbn [trace forwards sleep_ms marks List.length].
        repeat split; lia. }
      rewrite Z.gtb_ltb in Ha. apply Z.ltb_ge in Ha.
      destruct (GetNextPeer s) as [[[i peer]|] s'|p s'].
      * intros H. apply after_Some in H.
        destruct H as (x' & Hx' & Ht & _ & _). rewrite Ht.
        rewrite forwards_app, sleep_ms_app, marks_app.
        cbn [forwards sleep_ms marks app].
        destruct (IHserve (URL peer) s' t r x' Hvals Ha Hx') as (Hf & Hs & Hm).
        repeat split; lia.
      * intros H. inversion H; subst. cbn [trace forwards sleep_ms marks List.length].
        repeat split; lia.
      * intros H. inversion H; subst. cbn [trace forwards sleep_ms marks List.length].
        repeat split; lia.
    + intros u s t r x Hvals Ha. rewrite ServeHTTP_S.
      destruct (transport u t).
      * intros H. inversion H; subst. cbn [trace forwards sleep_ms marks List.length].
        unfold budget. repeat split; lia.
      * intros H. apply after_Some in H.
        destruct H as (x' & Hx' & Ht & _ & _). rewrite Ht.
        rewrite forwards_app, sleep_ms_app, marks_app.
        cbn [forwards sleep_ms marks app].
        destruct (IHerr u s (S t) r x' Hvals Ha Hx') as (Hf & Hs & Hm).
        repeat split; lia.
    + intros u s t r x [Hia Hir] Ha. rewrite ErrorHandler_S.
      destruct (GetRetryFromContext r <? 3) eqn:Hr.
      * apply Z.ltb_lt in Hr.
        assert (E : to_int (GetRetryFromContext r + 1) = GetRetryFromContext r + 1)
          by (apply to_int_id; unfold int_value in *; pow2; lia).
        rewrite E.
        set (r1 := WithContext r
                     (WithValue (Context r) Retry (GetRetryFromContext r + 1))).
        assert (Hr1 : GetRetryFromContext r1 = GetRetryFromContext r + 1)
          by reflexivity.
        assert (Ha1 : GetAttemptsFromContext r1 = GetAttemptsFromContext r)
          by reflexivity.
        intros H. apply after_Some in H.
        destruct H as (x' & Hx' & Ht & _ & _). rewrite Ht.
        rewrite forwards_app, sleep_ms_app, marks_app.
        cbn [forwards sleep_ms marks app].
        destruct (IHserve u s t r1 x') as (Hf & Hs & Hm);
          [|rewrite Ha1; exact Ha|exact Hx'|].
        { unfold ints. rewrite Hr1, Ha1. unfold int_value in *. pow2. lia. }
        unfold budget in *. rewrite Hr1, Ha1 in *. repeat split; lia.
      * apply Z.ltb_ge in Hr.
        assert (E : to_int (GetAttemptsFromContext r + 1)
                    = GetAttemptsFromContext r + 1)
          by (apply to_int_id; unfold int_value in *; pow2; lia).
        rewrite E.
        set (r2 := WithContext r
                     (WithValue (Context r) Attempts
                        (GetAttemptsFromContext r + 1))).
        assert (Ha2 : GetAttemptsFromContext r2 = GetAttemptsFromContext r + 1)
          by reflexivity.
        assert (Hr2 : GetRetryFromContext r2 = GetRetryFromContext r)
          by reflexivity.
        intros H. apply after_Some in H.
        destruct H as (x' & Hx' & Ht & _ & _). rewrite Ht.
        rewrite forwards_app, sleep_ms_app, marks_app.
        cbn [forwards sleep_ms marks app List.length].
        destruct (IHlb (MarkBackendStatus s u false) t r2 x') as (Hf & Hs & Hm);
          [|exact Hx'|].
        { unfold ints. rewrite Hr2, Ha2. unfold int_value in *. pow2. lia. }
        unfold budget in *. rewrite Hr2, Ha2 in *. repeat split; lia.
Qed.

(** X14: whatever the transport does, the handling of a request that
    arrives without counters makes at most 6 forwarding attempts in all,
    spends at most 30 ms in retry delays and marks at most 3 backends
    dead; in general the bounds are what the attempts and retries
    counters of the request leave below their ceilings. *)
Theorem request_cost_is_bounded (s : ServerPool) (t : nat) (r : Request)
  (fuel : nat) :
  ints r -> (fuel_for r <= fuel)%nat ->
  budget fresh_request = 6%nat /\
  exists x,
    lb transport fuel s t r = Some x /\
    (forwards (trace x) <= budget r)%nat /\
    sleep_ms (trace x) <= 10 * Z.of_nat (Z.to_nat (3 - GetRetryFromContext r)) /\
    (List.length (marks (trace x))
     <= Z.to_nat (4 - GetAttemptsFromContext r))%nat.
Proof.
  intros Hvals Hfuel. split; [reflexivity|].
  destruct (lb_total transport fuel s t r Hvals Hfuel) as [x Hx].
  exists x. split; [exact Hx|].
  exact (proj1 (dispatch_cost fuel) s t r x Hvals Hx).
Qed.

End Cost.

(** X14 at a request on the three-backend pool when every attempt
    fails: the bounds are met. *)
Lemma request_cost_is_bounded_witness :
  ints fresh_request /\ (fuel_for fresh_request <= 19)%nat /\
  exists x,
    lb refused 19 (pool_abc_up 0) 0 fresh_request = Some x /\
    forwards (trace x) = 6%nat /\ sleep_ms (trace x) = 30 /\
    List.length (marks (trace x)) = 3%nat.
Proof.
  split; [exact ints_fresh_request|]. split; [apply Nat.le_refl|].
  destruct (proj2 (request_cost_is_bounded refused (pool_abc_up 0) 0
                     fresh_request 19 ints_fresh_request (Nat.le_refl _)))
    as (x & Hx & _).
  exists x. split; [exact Hx|].
  vm_compute in Hx. inversion Hx as [Hx']. repeat split.
Defined.

(** ** The liveness writes of a request *)

Lemma replay_app (ms1 ms2 : list (url.URL * bool)) (bs : list Backend) :
  replay (ms1 ++ ms2) bs = replay ms2 (replay ms1 bs).
Proof. unfold replay. apply fold_left_app. Qed.

Lemma MarkBackendStatus_range_never_revives (bs : list Backend) (wanted : string) :
  forall k b,
    nth_error (MarkBackendStatus_range bs wanted false) k = Some b ->
    Alive b = true -> nth_error bs k = Some b.
Proof.
  induction bs as [|b0 rest IH]; intros k b Hnth Ha; simpl in Hnth.
  - exact Hnth.
  - destruct (String.eqb (url.String (URL b0)) wanted).
    + destruct k as [|k]; simpl in *; [|exact Hnth].
      inversion Hnth; subst b. discriminate.
    + destruct k as [|k]; simpl in *; [exact Hnth|].
      apply IH; assumption.
Qed.

Lemma replay_never_revives (ms : list (url.URL * bool)) :
  Forall (fun m => snd m = false) ms ->
  forall bs k b,
    nth_error (replay ms bs) k = Some b -> Alive b = true ->
    nth_error bs k = Some b.
Proof.
  induction 1 as [|[u a] ms Hm Hms IH]; intros bs k b Hnth Ha.
  - exact Hnth.
  - simpl in Hm. subst a. unfold replay in Hnth. simpl in Hnth.
    apply (IH _ k b) in Hnth; [|exact Ha].
    apply (MarkBackendStatus_range_never_revives bs (url.String u)); assumption.
Qed.

Section Writes.

Variable transport : url.URL -> nat -> bool.

Lemma dispatch_writes (fuel : nat) :
  (forall s t r x,
      lb transport fuel s t r = Some x ->
      backends (pool x) = replay (marks (trace x)) (backends s) /\
      Forall (fun m => snd m = false) (marks (trace x)))
  /\ (forall u s t r x,
         ServeHTTP transport fuel u s t r = Some x ->
         backends (pool x) = replay (marks (trace x)) (backends s) /\
         Forall (fun m => snd m = false) (marks (trace x)))
  /\ (forall u s t r x,
         ErrorHandler transport fuel u s t r = Some x ->
         backends (pool x) = replay (marks (trace x)) (backends s) /\
         Forall (fun m => snd m = false) (marks (trace x))).
Proof.
  induction fuel as [|fuel (IHlb & IHserve & IHerr)].
  - repeat split; intros; discriminate.
  - split; [|split].
    + intros s t r x. rewrite lb_S.
      destruct (GetAttemptsFromContext r >? 3).
      { intros H. inversion H; subst. split; [reflexivity|constructor]. }
      pose proof (GetNextPeer_backends s) as Hbs.
      destruct (GetNextPeer s) as [[[i peer]|] s'|p s']; simpl in Hbs.
      * intros H. apply after_Some in H.
        destruct H as (x' & Hx' & Ht & Hp & _). rewrite Ht, Hp.
        destruct (IHserve (URL peer) s' t r x' Hx') as [Hb Hf].
        rewrite Hbs in Hb. split; assumption.
      * intros H. inversion H; subst. split; [exact Hbs|constructor].
      * intros H. inversion H; subst. split; [exact Hbs|constructor].
    + intros u s t r x. rewrite ServeHTTP_S. destruct (transport u t).
      * intros H. inversion H; subst. split; [reflexivity|constructor].
      * intros H. apply after_Some in H.
        destruct H as (x' & Hx' & Ht & Hp & _). rewrite Ht, Hp.
        exact (IHerr u s (S t) r x' Hx').
    + intros u s t r x. rewrite ErrorHandler_S.
      destruct (GetRetryFromContext r <? 3); intros H; apply after_Some in H;
        destruct H as (x' & Hx' & Ht & Hp & _); rewrite Ht, Hp.
      * exact (IHserve u s t _ x' Hx').
      * destruct (IHlb _ t _ x' Hx') as [Hb Hf].
        cbn [app marks]. split; [exact Hb|]. constructor; [reflexivity|exact Hf].
Qed.

(** X15: the backends that a request leaves are those it found, with the
    [MarkBackendStatus] calls of its run applied in order, and every one
    of these calls marks dead: a run without such a call leaves every
    liveness flag as it was, and a backend that is alive after the run
    was alive, and the same, before it.  The dispatcher never sets a
    backend alive. *)
Theorem dispatch_only_marks_dead (fuel : nat) (s : ServerPool) (t : nat)
  (r : Request) (x : run) :
  lb transport fuel s t r = Some x ->
  backends (pool x) = replay (marks (trace x)) (backends s)
  /\ Forall (fun m => snd m = false) (marks (trace x))
  /\ (marks (trace x) = [] -> backends (pool x) = backends s)
  /\ forall k b, nth_error (backends (pool x)) k = Some b -> Alive b = true ->
                 nth_error (backends s) k = Some b.
Proof.
  intros Hx. destruct (proj1 (dispatch_writes fuel) s t r x Hx) as [Hb Hf].
  split; [exact Hb|]. split; [exact Hf|]. split.
  - intros Hnone. rewrite Hb, Hnone. reflexivity.
  - intros k b Hnth Ha. rewrite Hb in Hnth.
    apply (replay_never_revives _ Hf _ k b Hnth Ha).
Qed.



End Writes.

(** X15 at a request on the two-backend pool when the first two
    attempts fail: nothing is marked and both backends are still
    alive. *)
Lemma dispatch_only_marks_dead_witness :
  exists x,
    lb (fails_first 2) 19 (pool_ab 0) 0 fresh_request = Some x /\
    marks (trace x) = [] /\ backends (pool x) = backends (pool_ab 0).
Proof.
  destruct (lb (fails_first 2) 19 (pool_ab 0) 0 fresh_request) as [x|] eqn:Hx;
    [|vm_compute in Hx; discriminate].
  exists x. split; [reflexivity|].
  assert (Hm : marks (trace x) = [])
    by (vm_compute in Hx; inversion Hx; reflexivity).
  split; [exact Hm|].
  exact (proj1 (proj2 (proj2 (dispatch_only_marks_dead (fails_first 2) 19
                                (pool_ab 0) 0 fresh_request x Hx))) Hm).
Defined.


(** ** Where a request is forwarded *)

Section Targets.

Variable transport : url.URL -> nat -> bool.

Lemma dispatch_targets (fuel : nat) :
  (forall s t r x,
      lb transport fuel s t r = Some x ->
      forall v ok, In (EvRoundTrip v ok) (trace x) ->
                   In v (map URL (backends s)))
  /\ (forall u s t r x,
         In u (map URL (backends s)) ->
         ServeHTTP transport fuel u s t r = Some x ->
         forall v ok, In (EvRoundTrip v ok) (trace x) ->
                      In v (map URL (backends s)))
  /\ (forall u s t r x,
         In u (map URL (backends s)) ->
         ErrorHandler transport fuel u s t r = Some x ->
         forall v ok, In (EvRoundTrip v ok) (trace x) ->
                      In v (map URL (backends s))).
Proof.
  induction fuel as [|fuel (IHlb & IHserve & IHerr)].
  - repeat split; intros; discriminate.
  - split; [|split].
    + intros s t r x. rewrite lb_S.
      destruct (GetAttemptsFromContext r >? 3).
      { intros H. inversion H; subst. intros v ok [Hin|[Hin|[]]]; discriminate. }
      pose proof (GetNextPeer_backends s) as Hbs.
      destruct (GetNextPeer s) as [[[i peer]|] s'|p s'] eqn:Hget; simpl in Hbs.
      * intros H. apply after_Some in H.
        destruct H as (x' & Hx' & Ht & _ & _). rewrite Ht.
        intros v ok [Hin|Hin]; [discriminate|].
        rewrite <- Hbs. refine (IHserve (URL peer) s' t r x' _ Hx' v ok Hin).
        rewrite Hbs. apply in_map.
        apply GetNextPeer_sound in Hget. destruct Hget as [Hnth _].
        apply nth_error_In in Hnth. exact Hnth.
      * intros H. inversion H; subst. intros v ok [Hin|[Hin|[]]]; discriminate.
      * intros H. inversion H; subst. intros v ok [].
    + intros u s t r x Hu. rewrite ServeHTTP_S. destruct (transport u t).
      * intros H. inversion H; subst. intros v ok [Hin|[]].
        inversion Hin; subst. exact Hu.
      * intros H. apply after_Some in H.
        destruct H as (x' & Hx' & Ht & _ & _). rewrite Ht.
        intros v ok [Hin|Hin].
        -- inversion Hin; subst. exact Hu.
        -- apply (IHerr u s (S t) r x' Hu Hx' v ok Hin).
    + intros u s t r x Hu. rewrite ErrorHandler_S.
      destruct (GetRetryFromContext r <? 3); intros H; apply after_Some in H;
        destruct H as (x' & Hx' & Ht & _ & _); rewrite Ht; intros v ok Hin.
      * destruct Hin as [Hin|[Hin|Hin]]; try discriminate.
        apply (IHserve u s t _ x' Hu Hx' v ok Hin).
      * destruct Hin as [Hin|[Hin|[Hin|Hin]]]; try discriminate.
        pose proof (IHlb _ t _ x' Hx' v ok Hin) as Hv.
        unfold MarkBackendStatus in Hv. simpl in Hv.
        rewrite MarkBackendStatus_range_URLs in Hv. exact Hv.
Qed.

(** X17: a request is forwarded only to addresses of backends of the
    pool, never to another address, and the backend that serves it is
    one of the pool. *)
Theorem requests_go_to_pool_addresses (fuel : nat) (s : ServerPool) (t : nat)
  (r : Request) (x : run) :
  lb transport fuel s t r = Some x ->
  (forall v ok, In (EvRoundTrip v ok) (trace x) -> In v (map URL (backends s)))
  /\ (forall u, ended x = Served u -> In u (map URL (backends s))).
Proof.
  intros Hx.
  pose proof (proj1 (dispatch_targets fuel) s t r x Hx) as Htargets.
  split; [exact Htargets|].
  intros u Hu.
  pose proof (proj1 (dispatch_closes transport fuel) s t r x Hx) as Hc.
  rewrite Hu in Hc. simpl in Hc. destruct Hc as [_ [before Ht]].
  apply (Htargets u true). rewrite Ht. apply in_or_app. right. left. reflexivity.
Qed.

End Targets.

(** X17 at a request on the two-backend pool when the first two
    attempts fail. *)
Lemma requests_go_to_pool_addresses_witness :
  exists x,
    lb (fails_first 2) 19 (pool_ab 0) 0 fresh_request = Some x /\
    ended x = Served (addr "b:80") /\
    In (addr "b:80") (map URL (backends (pool_ab 0))).
Proof.
  destruct (lb (fails_first 2) 19 (pool_ab 0) 0 fresh_request) as [x|] eqn:Hx;
    [|vm_compute in Hx; discriminate].
  exists x. split; [reflexivity|].
  assert (He : ended x = Served (addr "b:80"))
    by (vm_compute in Hx; inversion Hx; reflexivity).
  split; [exact He|].
  exact (proj2 (requests_go_to_pool_addresses (fails_first 2) 19 (pool_ab 0) 0
                  fresh_request x Hx) _ He).
Defined.

(** * Further properties of the cursor *)

(** X18: on a pool of two or more backends [NextIndex] adds one to the
    cursor modulo 2^64, whatever the pool size, leaves the backends
    alone and returns the new cursor converted to [int]: the value
    converts back to the cursor, and it is negative exactly when the new
    cursor is 2^63 or more. *)
Theorem NextIndex_counts_modulo_2_64 (s : ServerPool) :
  2 <= len s -> uint64_value (current s) ->
  exists v s',
    NextIndex s = Ok v s' /\
    backends s' = backends s /\
    current s' = (current s + 1) mod 2 ^ 64 /\
    to_uint64 v = current s' /\
    (v < 0 <-> 2 ^ 63 <= current s + 1 < 2 ^ 64).
Proof.
  intros Hlen [H0 H1]. unfold NextIndex.
  replace (len s =? 0) with false by (symmetry; apply Z.eqb_neq; lia).
  rewrite Z.mod_1_l by lia.
  do 2 eexists. split; [reflexivity|]. split; [reflexivity|].
  split; [reflexivity|]. cbn [current]. unfold to_int, to_uint64. pow2.
  destruct (Z.eq_dec (current s + 1) 18446744073709551616) as [E|NE].
  - rewrite E. split; [reflexivity|]. split; [intros H; exfalso; revert H|lia].
    vm_compute. discriminate.
  - rewrite (Z.mod_small (current s + 1)) by lia.
    destruct (Z_lt_ge_dec (current s + 1) 9223372036854775808) as [Hlt|Hge].
    + rewrite (Z.mod_small (current s + 1 + 9223372036854775808)) by lia.
      split; [|lia].
      replace (current s + 1 + 9223372036854775808 - 9223372036854775808)
        with (current s + 1) by lia.
      apply Z.mod_small. lia.
    + replace (current s + 1 + 9223372036854775808)
        with (current s + 1 - 9223372036854775808 + 1 * 18446744073709551616)
        by lia.
      rewrite Z.mod_add by lia.
      rewrite (Z.mod_small (current s + 1 - 9223372036854775808)) by lia.
      split; [|lia].
      replace (current s + 1 - 9223372036854775808 - 9223372036854775808)
        with (current s + 1 + (-1) * 18446744073709551616) by lia.
      rewrite Z.mod_add by lia. apply Z.mod_small. lia.
Qed.

(** X18 at the two-backend pool with the cursor at the largest
    [uint64]: the cursor wraps to 0. *)
Lemma NextIndex_counts_modulo_2_64_witness :
  2 <= len (pool_ab (2 ^ 64 - 1)) /\
  uint64_value (current (pool_ab (2 ^ 64 - 1))) /\
  NextIndex (pool_ab (2 ^ 64 - 1)) = Ok 0 (pool_ab 0).
Proof.
  assert (Hl : 2 <= len (pool_ab (2 ^ 64 - 1))) by (apply Z.leb_le; reflexivity).
  assert (Hc : uint64_value (current (pool_ab (2 ^ 64 - 1))))
    by (split; [apply Z.leb_le|apply Z.ltb_lt]; reflexivity).
  split; [exact Hl|]. split; [exact Hc|].
  destruct (NextIndex_counts_modulo_2_64 (pool_ab (2 ^ 64 - 1)) Hl Hc)
    as (v & s' & Hn & _).
  reflexivity.
Defined.

(** X19: as long as the pool has room for [m] selections below the top
    of [int], none of [m] consecutive [GetNextPeer] calls panics,
    whatever the liveness flags are: each call moves the cursor up by at
    most one or back to a position of the pool. *)
Theorem GetNextPeer_calls_do_not_panic (m : nat) :
  forall s,
    room_for m s ->
    Forall (fun res => exists o s', res = Ok o s') (GetNextPeer_calls m s).
Proof.
  induction m as [|m IH]; intros s Hroom; [constructor|].
  destruct (GetNextPeer_moves_the_cursor s (room_for_in_range m s Hroom))
    as (o & s' & Hget & Hbs & Hcur & Hmove).
  cbn [GetNextPeer_calls]. rewrite Hget. constructor; [eauto|].
  apply IH. cbn [pool_of]. unfold room_for in *. rewrite (len_same _ _ Hbs). lia.
Qed.

(** X19 at the two-backend pool: three selections. *)
Lemma GetNextPeer_calls_do_not_panic_witness :
  room_for 3 (pool_ab 0) /\
  Forall (fun res => exists o s', res = Ok o s') (GetNextPeer_calls 3 (pool_ab 0)).
Proof.
  split; [exact room_for_pool_ab|].
  exact (GetNextPeer_calls_do_not_panic 3 (pool_ab 0) room_for_pool_ab).
Defined.
